(** * fnodata pubsub: the websocket hub, its clients and the connection pumps

    A shallow embedding of [pubsub/websocket.go] and of the two connection
    loops of [pubsub/pubsubhub.go].  Go maps are finite maps and finite sets,
    pointers to channels are natural-number identities into a store of
    channels, a run-time panic is the [None] of an [option] result, and the
    order in which a [range] statement walks a map is an explicit argument. *)

From stdpp Require Import gmap strings list fin_maps.
From Stdlib Require Import ZArith Ascii.

#[local] Set Warnings "-clear-no-such-hyp".
#[local] Set Default Proof Using "Type".


(** ** Message types (package [pubsub/types], as used by the hub) *)

(** [pstypes.HubSignal] is an integer type; the source names nine of its
    values.  [SigOther] stands for every other integer. *)
Inductive HubSignal : Set :=
| SigSubscribe
| SigUnsubscribe
| SigNewBlock
| SigMempoolUpdate
| SigPingAndUserCount
| SigNewTx
| SigNewTxs
| SigAddressTx
| SigSyncStatus
| SigOther (n : nat).

#[global] Instance HubSignal_eq_dec : EqDecision HubSignal.
Proof. solve_decision. Defined.

Definition HubSignal_code (s : HubSignal) : nat :=
  match s with
  | SigSubscribe => 0 | SigUnsubscribe => 1 | SigNewBlock => 2
  | SigMempoolUpdate => 3 | SigPingAndUserCount => 4 | SigNewTx => 5
  | SigNewTxs => 6 | SigAddressTx => 7 | SigSyncStatus => 8
  | SigOther n => 9 + n
  end%nat.

Definition HubSignal_of_code (n : nat) : HubSignal :=
  match n with
  | 0 => SigSubscribe | 1 => SigUnsubscribe | 2 => SigNewBlock
  | 3 => SigMempoolUpdate | 4 => SigPingAndUserCount | 5 => SigNewTx
  | 6 => SigNewTxs | 7 => SigAddressTx | 8 => SigSyncStatus
  | S (S (S (S (S (S (S (S (S m)))))))) => SigOther m
  end%nat.

#[global] Instance HubSignal_countable : Countable HubSignal.
Proof.
  refine (inj_countable' HubSignal_code HubSignal_of_code _).
  intros []; reflexivity.
Defined.

(** [pstypes.AddressMessage]. *)
Record AddressMessage : Set := { Address : string; TxHash : string }.

(** [exptypes.MempoolTx]; the hub only ever reads its hash. *)
Record MempoolTx : Set := { Hash : string }.

(** A Go pointer is [None] when nil. *)
Definition ptr (A : Type) : Type := option A.

(** The dynamic value held by the [interface{}] field [HubMessage.Msg]. *)
Inductive MsgValue : Set :=
| MsgNil                                   (* the nil interface *)
| MsgAddressPtr (p : option AddressMessage) (* *pstypes.AddressMessage *)
| MsgAddressVal (a : AddressMessage)        (* pstypes.AddressMessage *)
| MsgMempoolTxPtr (p : option MempoolTx)    (* *exptypes.MempoolTx *)
| MsgTxSlice (l : list (option MempoolTx))  (* []*exptypes.MempoolTx *)
| MsgString (s : string).                   (* some other dynamic type *)

(** What the verb [%T] of package fmt prints for the value. *)
Definition typeName (v : MsgValue) : string :=
  match v with
  | MsgNil => "<nil>"
  | MsgAddressPtr _ => "*types.AddressMessage"
  | MsgAddressVal _ => "types.AddressMessage"
  | MsgMempoolTxPtr _ => "*types.MempoolTx"
  | MsgTxSlice _ => "[]*types.MempoolTx"
  | MsgString _ => "string"
  end.

Record HubMessage : Set := { Signal : HubSignal; Msg : MsgValue }.

(** ** Constants of websocket.go *)

Definition NewTxBufferSize : nat := 5.
Definition clientSignalSize : nat := 5.
Definition MaxPayloadBytes : Z := Z.shiftl 1 20.
Definition tickerSigReset : nat := 0.
Definition tickerSigStop : nat := 1.
(** Capacity given to [make(hubSpoke, 16)] in [NewClientHubSpoke]. *)
Definition hubSpokeSize : nat := 16.

(** ** txList: the per-client buffer of new transactions *)

Module txList.

(** The slice [tl.t] of transaction pointers, oldest first. *)
Definition t : Type := list (ptr MempoolTx).

(** [newTxList(cap)]: an empty slice; [cap] only sizes the allocation. *)
Definition newTxList (cap : nat) : t := [].

(** [txList.addTxToBuffer]: append, then report whether the length is
    at or above [NewTxBufferSize]. *)
Definition addTxToBuffer (tl : t) (tx : ptr MempoolTx) : t * bool :=
  let tl' := tl ++ [tx] in
  (tl', bool_decide (NewTxBufferSize ≤ length tl')%nat).

End txList.

(** ** client *)

Record client : Type := {
  subs : gset HubSignal;
  addrs : gset string;
  newTxs : txList.t
}.

Definition newClient : client :=
  {| subs := ∅; addrs := ∅; newTxs := txList.newTxList NewTxBufferSize |}.

Definition set_subs (c : client) (s : gset HubSignal) : client :=
  {| subs := s; addrs := addrs c; newTxs := newTxs c |}.
Definition set_addrs (c : client) (a : gset string) : client :=
  {| subs := subs c; addrs := a; newTxs := newTxs c |}.
Definition set_newTxs (c : client) (l : txList.t) : client :=
  {| subs := subs c; addrs := addrs c; newTxs := l |}.

(** A line written to the logger. *)
Inductive Level : Set := LTrace | LDebug | LInfo | LWarn | LError.
Record LogLine : Set := { level : Level; text : string }.

(** [client.isSubscribed] together with what it logs.  The result is
    [None] when the Go code panics: the type assertion to
    [*AddressMessage] succeeds on a nil pointer of that type and
    [am.Address] then dereferences it. *)
Definition isSubscribed_log (c : client) (msg : HubMessage)
  : option (bool * list LogLine) :=
  let subd := bool_decide (Signal msg ∈ subs c) in
  if negb subd then Some (subd, [])
  else
    match Signal msg with
    | SigAddressTx =>
        match Msg msg with
        | MsgAddressPtr p =>
            am ← p; Some (bool_decide (Address am ∈ addrs c), [])
        | v =>
            Some (false,
                  [ {| level := LError;
                       text := "n AddressMessage (SigAddressTx): " +:+ typeName v |} ])
        end
    | _ => Some (subd, [])
    end.

Definition isSubscribed (c : client) (msg : HubMessage) : option bool :=
  fst <$> isSubscribed_log c msg.

(** A Go [error] value: [None] is nil. *)
Definition error : Set := option string.

(** [client.subscribe]: the client after the call and the error
    returned; [None] is a panic (nil [*AddressMessage]). *)
Definition subscribe (c : client) (msg : HubMessage) : option (client * error) :=
  match Signal msg with
  | SigAddressTx =>
      match Msg msg with
      | MsgAddressPtr p =>
          am ← p;
          let c1 := set_addrs c ({[ Address am ]} ∪ addrs c) in
          Some (set_subs c1 ({[ Signal msg ]} ∪ subs c1), None)
      | v =>
          Some (c, Some ("msg.Msg not a string (SigAddressTx): " +:+ typeName v))
      end
  | _ => Some (set_subs c ({[ Signal msg ]} ∪ subs c), None)
  end.

(** [client.unsubscribe]. *)
Definition unsubscribe (c : client) (msg : HubMessage) : option (client * error) :=
  match Signal msg with
  | SigAddressTx =>
      match Msg msg with
      | MsgAddressPtr p =>
          am ← p;
          let c1 := set_addrs c (addrs c ∖ {[ Address am ]}) in
          Some (set_subs c1 (subs c1 ∖ {[ Signal msg ]}), None)
      | v =>
          Some (c, Some ("msg.Msg not an AddressMessage (SigAddressTx): " +:+ typeName v))
      end
  | _ => Some (set_subs c (subs c ∖ {[ Signal msg ]}), None)
  end.

(** [client.unsubscribeAll]. *)
Definition unsubscribeAll (c : client) : client :=
  set_addrs (set_subs c ∅) ∅.

(** ** hubSpoke: the buffered channel from the hub to one send pump *)

(** A buffered Go channel of hub messages: the messages waiting in its
    buffer (oldest first), the capacity it was made with, and whether it
    has been closed. *)
Record hubSpoke : Set := {
  queue : list HubMessage;
  cap : nat;
  closed : bool
}.

(** [make(hubSpoke, n)]. *)
Definition make_hubSpoke (n : nat) : hubSpoke :=
  {| queue := []; cap := n; closed := false |}.

(** [select { case ch <- m: ... default: ... }].  [None] is the panic of a
    send on a closed channel; [Some None] is the default branch (the
    buffer is full); [Some (Some ch')] is a completed send. *)
Definition trySend (ch : hubSpoke) (m : HubMessage) : option (option hubSpoke) :=
  if closed ch then None
  else if bool_decide (length (queue ch) < cap ch)%nat
       then Some (Some {| queue := queue ch ++ [m]; cap := cap ch; closed := false |})
       else Some None.

(** [close(ch)]; closing a closed channel panics. *)
Definition close_chan (ch : hubSpoke) : option hubSpoke :=
  if closed ch then None
  else Some {| queue := queue ch; cap := cap ch; closed := true |}.

(** [clientHubSpoke]: a client and the address of its channel. *)
Record clientHubSpoke : Type := { cl : client; c : nat }.

(** ** WebsocketHub *)

(** The hub.  [clients] is keyed by channel address; [spokes] is the store
    those addresses point into.  [Register], [Unregister], [HubRelay] and
    [quitWSHandler] are read by [Run] and appear as its events;
    [quitClosed] records [close(wsh.quitWSHandler)], and [bufferTickerChan]
    lists the signals sent to the ticker goroutine, oldest first. *)
Record WebsocketHub : Type := {
  clients : gmap nat client;
  numClients : nat;
  bufferTickerChan : list nat;
  timeToSendTxBuffer : bool;
  quitClosed : bool;
  requestLimit : Z;
  ready : bool;
  spokes : gmap nat hubSpoke
}.

Definition set_clients (h : WebsocketHub) (m : gmap nat client) : WebsocketHub :=
  {| clients := m; numClients := numClients h;
     bufferTickerChan := bufferTickerChan h;
     timeToSendTxBuffer := timeToSendTxBuffer h; quitClosed := quitClosed h;
     requestLimit := requestLimit h; ready := ready h; spokes := spokes h |}.

Definition setNumClients (h : WebsocketHub) (n : nat) : WebsocketHub :=
  {| clients := clients h; numClients := n;
     bufferTickerChan := bufferTickerChan h;
     timeToSendTxBuffer := timeToSendTxBuffer h; quitClosed := quitClosed h;
     requestLimit := requestLimit h; ready := ready h; spokes := spokes h |}.

Definition send_bufferTickerChan (h : WebsocketHub) (sig : nat) : WebsocketHub :=
  {| clients := clients h; numClients := numClients h;
     bufferTickerChan := bufferTickerChan h ++ [sig];
     timeToSendTxBuffer := timeToSendTxBuffer h; quitClosed := quitClosed h;
     requestLimit := requestLimit h; ready := ready h; spokes := spokes h |}.

Definition TimeToSendTxBuffer (h : WebsocketHub) : bool := timeToSendTxBuffer h.

Definition SetTimeToSendTxBuffer (h : WebsocketHub) (b : bool) : WebsocketHub :=
  {| clients := clients h; numClients := numClients h;
     bufferTickerChan := bufferTickerChan h;
     timeToSendTxBuffer := b; quitClosed := quitClosed h;
     requestLimit := requestLimit h; ready := ready h; spokes := spokes h |}.

Definition close_quitWSHandler (h : WebsocketHub) : WebsocketHub :=
  {| clients := clients h; numClients := numClients h;
     bufferTickerChan := bufferTickerChan h;
     timeToSendTxBuffer := timeToSendTxBuffer h; quitClosed := true;
     requestLimit := requestLimit h; ready := ready h; spokes := spokes h |}.

Definition Ready (h : WebsocketHub) : bool := ready h.

Definition SetReady (h : WebsocketHub) (b : bool) : WebsocketHub :=
  {| clients := clients h; numClients := numClients h;
     bufferTickerChan := bufferTickerChan h;
     timeToSendTxBuffer := timeToSendTxBuffer h; quitClosed := quitClosed h;
     requestLimit := requestLimit h; ready := b; spokes := spokes h |}.

Definition set_spokes (h : WebsocketHub) (s : gmap nat hubSpoke) : WebsocketHub :=
  {| clients := clients h; numClients := numClients h;
     bufferTickerChan := bufferTickerChan h;
     timeToSendTxBuffer := timeToSendTxBuffer h; quitClosed := quitClosed h;
     requestLimit := requestLimit h; ready := ready h; spokes := s |}.

Definition NumClients (h : WebsocketHub) : nat := numClients h.

(** [NewWebsocketHub]. *)
Definition NewWebsocketHub : WebsocketHub :=
  {| clients := ∅; numClients := 0; bufferTickerChan := [];
     timeToSendTxBuffer := false; quitClosed := false;
     requestLimit := MaxPayloadBytes; ready := false; spokes := ∅ |}.

(** The first half of [NewClientHubSpoke]: make the channel and the client,
    at an address not yet in use.  (The second half sends the result on
    [Register].) *)
Definition NewClientHubSpoke (h : WebsocketHub) : clientHubSpoke * WebsocketHub :=
  let a := fresh (dom (spokes h)) in
  ({| cl := newClient; c := a |},
   set_spokes h (<[a := make_hubSpoke hubSpokeSize]> (spokes h))).

(** [registerClient]. *)
Definition registerClient (h : WebsocketHub) (ch : clientHubSpoke) : WebsocketHub :=
  let h1 := set_clients h (<[c ch := cl ch]> (clients h)) in
  setNumClients h1 (size (clients h1)).

(** [unregisterClient]: an unknown key changes nothing; otherwise the entry
    is deleted, the gauge updated and the channel closed. *)
Definition unregisterClient (h : WebsocketHub) (c : nat) : option WebsocketHub :=
  match clients h !! c with
  | None => Some h
  | Some _ =>
      let h1 := set_clients h (delete c (clients h)) in
      let h2 := setNumClients h1 (size (clients h1)) in
      ch ← spokes h2 !! c;
      ch' ← close_chan ch;
      Some (set_spokes h2 (<[c := ch']> (spokes h2)))
  end.

(** A [for k, v := range wsh.clients] loop whose body may delete entries:
    [order] is the order in which the run time produces the keys, and an
    entry deleted before it is reached is not produced. *)
Fixpoint range_clients
    (body : WebsocketHub → nat → client → option WebsocketHub)
    (order : list nat) (h : WebsocketHub) : option WebsocketHub :=
  match order with
  | [] => Some h
  | k :: rest =>
      match clients h !! k with
      | Some cl => h' ← body h k cl; range_clients body rest h'
      | None => range_clients body rest h
      end
  end.

(** [unregisterAllClients]: collect the keys, then delete and close each. *)
Fixpoint unregisterAllClients_loop (spokes_ : list nat) (h : WebsocketHub)
  : option WebsocketHub :=
  match spokes_ with
  | [] => Some h
  | c :: rest =>
      let h1 := set_clients h (delete c (clients h)) in
      ch ← spokes h1 !! c;
      ch' ← close_chan ch;
      unregisterAllClients_loop rest (set_spokes h1 (<[c := ch']> (spokes h1)))
  end.

Definition unregisterAllClients (order : list nat) (h : WebsocketHub)
  : option WebsocketHub :=
  let spokes_ := filter (λ k, is_Some (clients h !! k)) order in
  unregisterAllClients_loop spokes_ h.

(** The hub's [addTxToBuffer]: every client's buffer gets the transaction;
    the result is assigned anew for every client visited. *)
Fixpoint addTxToBuffer_range (tx : ptr MempoolTx) (order : list nat)
    (h : WebsocketHub) (someReadyToSend : bool) : WebsocketHub * bool :=
  match order with
  | [] => (h, someReadyToSend)
  | k :: rest =>
      match clients h !! k with
      | Some client_ =>
          let '(t', r) := txList.addTxToBuffer (newTxs client_) tx in
          addTxToBuffer_range tx rest
            (set_clients h (<[k := set_newTxs client_ t']> (clients h))) r
      | None => addTxToBuffer_range tx rest h someReadyToSend
      end
  end.

Definition addTxToBuffer (tx : ptr MempoolTx) (order : list nat)
    (h : WebsocketHub) : WebsocketHub * bool :=
  addTxToBuffer_range tx order h false.

(** [MaybeSendTxns]. *)
Definition MaybeSendTxns (tx : ptr MempoolTx) (order : list nat)
    (h : WebsocketHub) : WebsocketHub * bool :=
  let '(h1, someReadyToSend) := addTxToBuffer tx order h in
  if someReadyToSend
  then (send_bufferTickerChan h1 tickerSigReset, someReadyToSend)
  else (h1, someReadyToSend).

(** The body of the fan-out loop of [Run]: skip a client that is not
    subscribed, otherwise signal it or unregister it. *)
Definition signal_or_unregister (hubMsg : HubMessage)
    (h : WebsocketHub) (spoke : nat) (client_ : client) : option WebsocketHub :=
  subd ← isSubscribed client_ hubMsg;
  if negb subd then Some h
  else
    ch ← spokes h !! spoke;
    r ← trySend ch hubMsg;
    match r with
    | Some ch' => Some (set_spokes h (<[spoke := ch']> (spokes h)))
    | None => unregisterClient h spoke
    end.

Definition fanout (hubMsg : HubMessage) (order : list nat) (h : WebsocketHub)
  : option WebsocketHub :=
  range_clients (signal_or_unregister hubMsg) order h.

(** ** The event loop *)

(** What [Run] can observe in one turn of its loop, and what the other
    goroutines do to state the hub shares with them.  The lists are the
    orders in which the [range] statements of that turn walk
    [wsh.clients]. *)
Inductive Event : Type :=
| RecvHubRelay (hubMsg : option HubMessage) (order1 order2 : list nat)
    (* a receive on HubRelay; [None]: the channel is closed *)
| RecvRegister
    (* a receive on Register of what NewClientHubSpoke has just made *)
| RecvUnregister (c : nat)
| RecvQuit (ok : bool) (order : list nat)
| TickerFired                (* periodicTxBufferSend: SetTimeToSendTxBuffer(true) *)
| PumpReceive (c : nat)      (* a send pump takes the oldest message of its channel *)
| PumpDrain (c : nat)        (* a send pump re-initialises its client's tx buffer *)
| PumpSubscribe (c : nat) (msg : HubMessage)
| PumpUnsubscribe (c : nat) (msg : HubMessage)
| PumpUnsubscribeAll (c : nat).

(** Where the loop stands after a turn. *)
Inductive RunState : Type :=
| Running (h : WebsocketHub)
| Returned (h : WebsocketHub).

(** The end of the [HubRelay] branch of [Run]: signal the clients, then
    lower the flag of the ticker if what was sent is the batched event. *)
Definition Run_send (hubMsg : HubMessage) (order2 : list nat) (h : WebsocketHub)
  : option WebsocketHub :=
  h2 ← fanout hubMsg order2 h;
  if bool_decide (Signal hubMsg = SigNewTxs)
  then Some (SetTimeToSendTxBuffer h2 false)
  else Some h2.

(** What the [switch] on the signal decides. *)
Inductive Switch : Type :=
| SwContinue                                  (* [continue]: next turn *)
| SwGoOn (h : WebsocketHub) (someTxBuffersReady : bool).

Section Run.

(** [HubMessage.IsValid] belongs to package [pubsub/types]. *)
Variable IsValid : HubMessage → bool.

Definition Run_switch (hubMsg : HubMessage) (order1 : list nat)
    (h : WebsocketHub) : Switch :=
  match Signal hubMsg with
  | SigNewBlock => SwGoOn h false
  | SigPingAndUserCount => SwGoOn h false
  | SigMempoolUpdate => SwGoOn h false
  | SigAddressTx =>
      match Msg hubMsg with
      | MsgAddressPtr (Some _) => SwGoOn h false
      | _ => SwContinue
      end
  | SigNewTx =>
      match Msg hubMsg with
      | MsgMempoolTxPtr (Some newtx) =>
          let '(h1, r) := MaybeSendTxns (Some newtx) order1 h in SwGoOn h1 r
      | _ => SwContinue
      end
  | SigSubscribe | SigUnsubscribe => SwContinue
  | SigSyncStatus => SwGoOn h false
  | _ => SwContinue
  end.

(** The [case hubMsg, ok := <-wsh.HubRelay] branch for an open channel.
    The result is the hub with which the loop goes round again. *)
Definition Run_relay (hubMsg : HubMessage) (order1 order2 : list nat)
    (h : WebsocketHub) : option WebsocketHub :=
  let clientsCount := size (clients h) in
  if bool_decide (clientsCount = 0%nat) then Some h
  else if negb (IsValid hubMsg) then Some h
  else
    match Run_switch hubMsg order1 h with
    | SwContinue => Some h
    | SwGoOn h1 someTxBuffersReady =>
        if bool_decide (Signal hubMsg = SigNewTx) then
          if negb (someTxBuffersReady || TimeToSendTxBuffer h1) then Some h1
          else Run_send {| Signal := SigNewTxs; Msg := MsgTxSlice [] |} order2 h1
        else Run_send hubMsg order2 h1
    end.

(** Leaving [Run]: the deferred [unregisterAllClients]. (The deferred
    loop over [HubRelay] discards what is still sent to the hub.) *)
Definition Run_return (order : list nat) (h : WebsocketHub) : option RunState :=
  h' ← unregisterAllClients order h; Some (Returned h').

Definition pump (f : client → option client) (c : nat) (h : WebsocketHub)
  : option WebsocketHub :=
  match clients h !! c with
  | Some client_ =>
      client' ← f client_; Some (set_clients h (<[c := client']> (clients h)))
  | None => Some h
  end.

(** One turn of the [for { select { ... } }] of [Run], or one step of
    another goroutine on the shared state. *)
Definition Run_step (h : WebsocketHub) (ev : Event) : option RunState :=
  match ev with
  | RecvHubRelay None _ order2 => Run_return order2 h
  | RecvHubRelay (Some hubMsg) order1 order2 =>
      h' ← Run_relay hubMsg order1 order2 h; Some (Running h')
  | RecvRegister =>
    let '(ch, h1) := NewClientHubSpoke h in Some (Running (registerClient h1 ch))
  | RecvUnregister c => h' ← unregisterClient h c; Some (Running h')
  | RecvQuit false order => Run_return order h
  | RecvQuit true order =>
      if quitClosed h then None
      else Run_return order
             (send_bufferTickerChan (close_quitWSHandler h) tickerSigStop)
  | TickerFired => Some (Running (SetTimeToSendTxBuffer h true))
  | PumpReceive c =>
      Some (Running
              (match spokes h !! c with
               | Some ch =>
                   set_spokes h
                     (<[c := {| queue := tail (queue ch); cap := cap ch;
                                closed := closed ch |}]> (spokes h))
               | None => h
               end))
  | PumpDrain c =>
      h' ← pump (λ cl, Some (set_newTxs cl (txList.newTxList NewTxBufferSize))) c h;
      Some (Running h')
  | PumpSubscribe c msg =>
      h' ← pump (λ cl, fst <$> subscribe cl msg) c h; Some (Running h')
  | PumpUnsubscribe c msg =>
      h' ← pump (λ cl, fst <$> unsubscribe cl msg) c h; Some (Running h')
  | PumpUnsubscribeAll c =>
      h' ← pump (λ cl, Some (unsubscribeAll cl)) c h; Some (Running h')
  end.

(** [Run] on the events that reach it, in order.  [Running h]: every
    event was handled and the loop waits in its [select]; [Returned h]:
    the loop has returned and the remaining events were not handled;
    [None]: a panic. *)
Fixpoint Run (h : WebsocketHub) (evs : list Event) : option RunState :=
  match evs with
  | [] => Some (Running h)
  | ev :: rest =>
      r ← Run_step h ev;
      match r with
      | Running h' => Run h' rest
      | Returned h' => Some (Returned h')
      end
  end.

End Run.

(** ** The connection pumps of pubsubhub.go *)

(** [pstypes.WebSocketMessage], the JSON envelope. *)
Record WebSocketMessage : Set := { EventId : string; Message : string }.

(** The outcome of [websocket.JSON.Receive]. *)
Inductive Received : Set :=
| RecvTimeout                       (* an error that IsIOTimeoutErr accepts *)
| RecvError (e : string)            (* any other error *)
| RecvMessage (msg : WebSocketMessage).

Inductive LoopCtl : Set := LoopContinue | LoopReturn.

(** One turn of a pump: the client afterwards, what was written to the
    connection, and whether the loop goes round again. *)
Record Turn (A : Type) : Type := {
  turn_client : client;
  turn_sent : list A;
  turn_ctl : LoopCtl
}.
Arguments turn_client {A} _.
Arguments turn_sent {A} _.
Arguments turn_ctl {A} _.

(** What the [switch msg.EventId] of [receiveLoop] decides. *)
Inductive Reply : Type :=
| ReplyWith (c : client) (message : string)   (* leave the switch and respond *)
| NoReply.                                   (* [continue] *)

(** Go's [len] of a string, in bytes. *)
Definition len (s : string) : Z := Z.of_nat (String.length s).

Section ReceiveLoop.

(** [pstypes.ValidateSubscription]. *)
Variable ValidateSubscription : string → HubSignal * MsgValue * bool.
(** [sourceBase.DecodeRawTransaction] followed by [json.MarshalIndent]:
    [inr e] is a decoding error, [inl None] a marshalling error. *)
Variable DecodeRawTransaction : string → option string + string.
(** [sourceBase.SendRawTransaction]: [inl txid] or [inr e]. *)
Variable SendRawTransaction : string → string + string.

Definition receiveLoop_switch (conn_client : client) (msg : WebSocketMessage)
    (mempoolJSON : option string) : option Reply :=
  if String.eqb (EventId msg) "subscribe" then
    let '(sig, sigMsg, valid) := ValidateSubscription (Message msg) in
    if negb valid then Some (ReplyWith conn_client "invalid subscription")
    else
      '(c', err) ← subscribe conn_client {| Signal := sig; Msg := sigMsg |};
      match err with
      | Some _ => Some (ReplyWith c' "invalid subscription")
      | None => Some (ReplyWith c' (Message msg +:+ " subscribe ok"))
      end
  else if String.eqb (EventId msg) "unsubscribe" then
    let '(sig, sigMsg, valid) := ValidateSubscription (Message msg) in
    if negb valid then Some (ReplyWith conn_client "invalid subscription")
    else
      '(c', err) ← unsubscribe conn_client {| Signal := sig; Msg := sigMsg |};
      match err with
      | Some _ => Some (ReplyWith c' "invalid subscription")
      | None => Some (ReplyWith c' (Message msg +:+ " unsubscribe ok"))
      end
  else if String.eqb (EventId msg) "decodetx" then
    match DecodeRawTransaction (Message msg) with
    | inl (Some b) => Some (ReplyWith conn_client b)
    | inl None => Some (ReplyWith conn_client "Error: Could not encode JSON message")
    | inr e => Some (ReplyWith conn_client ("Error: " +:+ e))
    end
  else if String.eqb (EventId msg) "sendtx" then
    match SendRawTransaction (Message msg) with
    | inr e => Some (ReplyWith conn_client ("Error: " +:+ e))
    | inl txid => Some (ReplyWith conn_client ("Transaction sent: " +:+ txid))
    end
  else if String.eqb (EventId msg) "getmempooltxs" then
    match mempoolJSON with
    | None => Some (ReplyWith conn_client "Error: Could not encode JSON message")
    | Some b => Some (ReplyWith conn_client b)
    end
  else if String.eqb (EventId msg) "ping" then Some NoReply
  else Some NoReply.

(** One turn of the [for] loop of [receiveLoop].  [send_ok] tells whether
    [websocket.JSON.Send] succeeds should the turn reach it. *)
Definition receiveLoop_turn (requestLimit : Z) (conn_client : client)
    (r : Received) (mempoolJSON : option string) (send_ok : bool)
  : option (Turn WebSocketMessage) :=
  match r with
  | RecvTimeout =>
      Some {| turn_client := conn_client; turn_sent := []; turn_ctl := LoopContinue |}
  | RecvError _ =>
      Some {| turn_client := conn_client; turn_sent := []; turn_ctl := LoopReturn |}
  | RecvMessage msg =>
      let resp := {| EventId := EventId msg +:+ "Resp"; Message := "" |} in
      if bool_decide (requestLimit < len (Message msg))%Z then
        (* resp.Message = "Request too large"; continue *)
        let resp := {| EventId := EventId resp; Message := "Request too large" |} in
        Some {| turn_client := conn_client; turn_sent := []; turn_ctl := LoopContinue |}
      else
        reply ← receiveLoop_switch conn_client msg mempoolJSON;
        match reply with
        | NoReply =>
            Some {| turn_client := conn_client; turn_sent := [];
                    turn_ctl := LoopContinue |}
        | ReplyWith c' m =>
            let resp := {| EventId := EventId resp; Message := m |} in
            if send_ok
            then Some {| turn_client := c'; turn_sent := [resp];
                         turn_ctl := LoopContinue |}
            else Some {| turn_client := c'; turn_sent := [];
                         turn_ctl := LoopReturn |}
        end
  end.

End ReceiveLoop.

(** What the send pump serialises into [pushMsg.Message]. *)
Inductive PushBody : Type :=
| BodyEmpty                                  (* the empty string *)
| BodyAddress (am : option AddressMessage)
| BodyBlock
| BodyMempoolShort
| BodyUserCount (n : nat)
| BodyTxs (l : txList.t).

(** A message pushed to the client: its EventId is the name of the signal. *)
Record Push : Type := { pushSignal : HubSignal; pushBody : PushBody }.

(** What the [select] of [sendLoop] yields. *)
Inductive Selected : Set :=
| SelSig (sig : option HubMessage)   (* from updateSigChan; [None]: closed *)
| SelQuit.                            (* from quitWSHandler *)

(** What the [switch sig.Signal] of [sendLoop] decides. *)
Inductive PushOrSkip : Type :=
| DoPush (c : client) (b : PushBody)
| Skip.                                      (* [continue loop] *)

Section SendLoop.

Variable IsValid : HubMessage → bool.

Definition sendLoop_switch (clientData : client) (sig : HubMessage)
    (haveBlockInfo haveInv : bool) (numClients : nat) : PushOrSkip :=
  match Signal sig with
  | SigAddressTx =>
      match Msg sig with
      | MsgAddressPtr am => DoPush clientData (BodyAddress am)
      | _ => Skip
      end
  | SigNewBlock =>
      if haveBlockInfo then DoPush clientData BodyBlock
      else DoPush clientData BodyEmpty
  | SigMempoolUpdate =>
      if haveInv then DoPush clientData BodyMempoolShort
      else DoPush clientData BodyEmpty
  | SigPingAndUserCount => DoPush clientData (BodyUserCount numClients)
  | SigNewTxs =>
      if bool_decide (length (newTxs clientData) = 0%nat) then Skip
      else DoPush (set_newTxs clientData (txList.newTxList NewTxBufferSize))
                  (BodyTxs (newTxs clientData))
  | _ => Skip
  end.

(** One turn of the [for] loop of [sendLoop]. *)
Definition sendLoop_turn (clientData : client) (sel : Selected)
    (haveBlockInfo haveInv : bool) (numClients : nat) (send_ok : bool)
  : option (Turn Push) :=
  let skip := {| turn_client := clientData; turn_sent := [];
                 turn_ctl := LoopContinue |} in
  match sel with
  | SelQuit | SelSig None =>
      Some {| turn_client := clientData; turn_sent := []; turn_ctl := LoopReturn |}
  | SelSig (Some sig) =>
      if negb (IsValid sig) then Some skip
      else
        subd ← isSubscribed clientData sig;
        if negb subd then Some skip
        else
          match sendLoop_switch clientData sig haveBlockInfo haveInv numClients with
          | Skip => Some skip
          | DoPush c' b =>
              if send_ok
              then Some {| turn_client := c';
                           turn_sent := [ {| pushSignal := Signal sig; pushBody := b |} ];
                           turn_ctl := LoopContinue |}
              else Some {| turn_client := c'; turn_sent := [];
                           turn_ctl := LoopReturn |}
          end
  end.

End SendLoop.

(** Modelled from the spec: [HubMessage.IsValid] of package [pubsub/types],
    which is not among the sources.  The spec makes validity a function of
    the kind and of whether the payload has the type that kind carries. *)
Definition IsValid_model (m : HubMessage) : bool :=
  match Signal m, Msg m with
  | SigAddressTx, MsgAddressPtr _ => true
  | SigAddressTx, _ => false
  | SigNewTx, MsgMempoolTxPtr _ => true
  | SigNewTx, _ => false
  | SigNewTxs, MsgTxSlice _ => true
  | SigNewTxs, _ => false
  | SigOther _, _ => false
  | _, _ => true
  end.

(** ** Predicates used to state the properties *)

(** The channel at address [k] exists and is open. *)
Definition spoke_open (h : WebsocketHub) (k : nat) : bool :=
  match spokes h !! k with
  | Some ch => negb (closed ch)
  | None => false
  end.

(** A hub whose loop is running: every registered key points to an open
    channel and [quitWSHandler] has not been closed. *)
Definition hub_ok (h : WebsocketHub) : Prop :=
  map_Forall (λ k _, spoke_open h k = true) (clients h) ∧ quitClosed h = false.

(** [order] is an order in which [range] may produce the keys of [m]:
    every key once. *)
Definition range_order (m : gmap nat client) (order : list nat) : Prop :=
  NoDup order ∧ list_to_set order = dom m.

(** What one fan-out round of [hubMsg] does to the client at key [k], from
    hub [h] to hub [h']. *)
Definition enqueued (hubMsg : HubMessage) (h h' : WebsocketHub) (k : nat) : Prop :=
  clients h' !! k = clients h !! k ∧
  ∃ ch, spokes h !! k = Some ch ∧
        spokes h' !! k =
          Some {| queue := queue ch ++ [hubMsg]; cap := cap ch; closed := false |}.

Definition evicted (h h' : WebsocketHub) (k : nat) : Prop :=
  clients h' !! k = None ∧
  ∃ ch, spokes h !! k = Some ch ∧ closed ch = false ∧
        spokes h' !! k =
          Some {| queue := queue ch; cap := cap ch; closed := true |}.

Definition untouched (h h' : WebsocketHub) (k : nat) : Prop :=
  clients h' !! k = clients h !! k ∧ spokes h' !! k = spokes h !! k.

(** The events on which [Run] returns, with the order in which the
    deferred [unregisterAllClients] walks the registry. *)
Definition shutdown_order (ev : Event) : option (list nat) :=
  match ev with
  | RecvQuit _ order => Some order
  | RecvHubRelay None _ order => Some order
  | _ => None
  end.

(** A subscription request the client accepts: any kind but address
    activity, or address activity with a non-nil [*AddressMessage]. *)
Definition wellformed_request (msg : HubMessage) : bool :=
  match Signal msg, Msg msg with
  | SigAddressTx, MsgAddressPtr (Some _) => true
  | SigAddressTx, _ => false
  | _, _ => true
  end.

(** The client that has subscribed to the activity of address "B" only. *)
Definition addr_msg (a : string) : HubMessage :=
  {| Signal := SigAddressTx;
     Msg := MsgAddressPtr (Some {| Address := a; TxHash := "" |}) |}.

Definition client_B : client :=
  {| subs := {[ SigAddressTx ]}; addrs := {[ "B" ]}; newTxs := [] |}.

(** A payload that carries an address message: a non-nil
    [*AddressMessage]. *)
Definition wellformed_address (v : MsgValue) : bool :=
  match v with
  | MsgAddressPtr (Some _) => true
  | _ => false
  end.

Definition not_AddressMessage_line (v : MsgValue) : LogLine :=
  {| level := LError; text := "n AddressMessage (SigAddressTx): " +:+ typeName v |}.

Definition client_AB : client :=
  {| subs := {[ SigAddressTx ]}; addrs := {[ "A"; "B" ]}; newTxs := [] |}.

(** What one fan-out round of [hubMsg] does at key [k]: a subscribed
    client is signalled if its channel has room and evicted if not; a
    client that is not subscribed, and a key that is not registered, are
    left alone. *)
Definition fanout_at (hubMsg : HubMessage) (h h' : WebsocketHub) (k : nat) : Prop :=
  match clients h !! k with
  | None => untouched h h' k
  | Some cl =>
      match isSubscribed cl hubMsg with
      | Some true =>
          ∃ ch, spokes h !! k = Some ch ∧
                if bool_decide (length (queue ch) < cap ch)
                then enqueued hubMsg h h' k
                else evicted h h' k
      | _ => untouched h h' k
      end
  end.

(** A message on which [isSubscribed] cannot panic. *)
Definition no_nil_address (hubMsg : HubMessage) : Prop :=
  Signal hubMsg = SigAddressTx → Msg hubMsg ≠ MsgAddressPtr None.

(** ** Hubs used as concrete instances *)

Definition ping : HubMessage := {| Signal := SigPingAndUserCount; Msg := MsgNil |}.
Definition newblock : HubMessage := {| Signal := SigNewBlock; Msg := MsgNil |}.

(** A client subscribed to one kind, with an empty buffer. *)
Definition subscriber (s : HubSignal) : client :=
  {| subs := {[ s ]}; addrs := ∅; newTxs := [] |}.

(** Three registered clients, all subscribed to new blocks; the channel of
    client 1 holds sixteen undelivered pings and is full. *)
Definition hub3 : WebsocketHub :=
  {| clients := {[ 0%nat := subscriber SigNewBlock; 1%nat := subscriber SigNewBlock;
                   2%nat := subscriber SigNewBlock ]};
     numClients := 3;
     bufferTickerChan := [];
     timeToSendTxBuffer := false;
     quitClosed := false;
     requestLimit := MaxPayloadBytes;
     ready := false;
     spokes := {[ 0%nat := make_hubSpoke hubSpokeSize;
                  1%nat := {| queue := replicate 16 ping; cap := hubSpokeSize;
                              closed := false |};
                  2%nat := make_hubSpoke hubSpokeSize ]} |}.

(** The orders carried by an event are orders in which the registry of
    [h] can be walked, and a pump's request does not make [subscribe] or
    [unsubscribe] panic. *)
Definition event_ok (h : WebsocketHub) (ev : Event) : Prop :=
  match ev with
  | RecvHubRelay (Some _) order1 order2 =>
      range_order (clients h) order1 ∧ range_order (clients h) order2
  | RecvHubRelay None _ order => range_order (clients h) order
  | RecvQuit _ order => range_order (clients h) order
  | PumpSubscribe _ msg => no_nil_address msg
  | PumpUnsubscribe _ msg => no_nil_address msg
  | _ => True
  end.

(** A single-new-transaction event. *)
Definition newtx (hash : string) : HubMessage :=
  {| Signal := SigNewTx; Msg := MsgMempoolTxPtr (Some {| Hash := hash |}) |}.

(** One client connects and never subscribes; six transactions arrive. *)
Definition six_transactions : list Event :=
  [ RecvRegister;
    RecvHubRelay (Some (newtx "t1")) [0%nat] [0%nat];
    RecvHubRelay (Some (newtx "t2")) [0%nat] [0%nat];
    RecvHubRelay (Some (newtx "t3")) [0%nat] [0%nat];
    RecvHubRelay (Some (newtx "t4")) [0%nat] [0%nat];
    RecvHubRelay (Some (newtx "t5")) [0%nat] [0%nat];
    RecvHubRelay (Some (newtx "t6")) [0%nat] [0%nat] ].

(** A first client connects and subscribes to the batched transactions;
    four transactions arrive; a second client connects and subscribes. *)
Definition two_clients_setup : list Event :=
  [ RecvRegister;
    PumpSubscribe 0 {| Signal := SigNewTxs; Msg := MsgNil |};
    RecvHubRelay (Some (newtx "t1")) [0%nat] [0%nat];
    RecvHubRelay (Some (newtx "t2")) [0%nat] [0%nat];
    RecvHubRelay (Some (newtx "t3")) [0%nat] [0%nat];
    RecvHubRelay (Some (newtx "t4")) [0%nat] [0%nat];
    RecvRegister;
    PumpSubscribe 1 {| Signal := SigNewTxs; Msg := MsgNil |} ].

(** The hub that [Run] has reached after [two_clients_setup]. *)
Definition hub_two : WebsocketHub :=
  match Run IsValid_model NewWebsocketHub two_clients_setup with
  | Some (Running h) => h
  | _ => NewWebsocketHub
  end.

(** The batched event the hub sends in place of a single transaction. *)
Definition newtxs_ready : HubMessage := {| Signal := SigNewTxs; Msg := MsgTxSlice [] |}.

(** The client after one more transaction has been put in its buffer. *)
Definition append_tx (tx : ptr MempoolTx) (cl : client) : client :=
  set_newTxs cl (newTxs cl ++ [tx]).

(** Whether a buffer of this length reports ready once one more
    transaction has been appended. *)
Definition ready_after (cl : client) : bool :=
  bool_decide (NewTxBufferSize ≤ S (length (newTxs cl))).

(** A list of events each of which is [event_ok] in the state where [Run]
    meets it. *)
Fixpoint events_ok (IsValid : HubMessage → bool) (h : WebsocketHub)
    (evs : list Event) : Prop :=
  match evs with
  | [] => True
  | ev :: rest =>
      event_ok h ev ∧
      ∀ h', Run_step IsValid h ev = Some (Running h') → events_ok IsValid h' rest
  end.

(** What holds of the hub wherever [Run] stands: while it runs the hub is
    [hub_ok]; once it has returned the registry is empty. *)
Definition run_ok (r : RunState) : Prop :=
  match r with
  | Running h => hub_ok h
  | Returned h => clients h = ∅
  end.

(** The hub that [Run] has reached when the fifth of [six_transactions]
    has been handled: one client, five transactions in its buffer. *)
Definition hub_five : WebsocketHub :=
  match Run IsValid_model NewWebsocketHub (take 6 six_transactions) with
  | Some (Running h) => h
  | _ => NewWebsocketHub
  end.

(** A string of [n] bytes. *)
Fixpoint bytes (n : nat) : string :=
  match n with
  | O => EmptyString
  | S m => String "a"%char (bytes m)
  end.

(** A request one byte longer than [MaxPayloadBytes]. *)
Definition oversized_request : WebSocketMessage :=
  {| EventId := "subscribe"; Message := bytes (Z.to_nat (MaxPayloadBytes + 1)) |}.

(** The gauge agrees with the registry: [NumClients] is the number of
    registered clients. *)
Definition gauge_ok (h : WebsocketHub) : Prop := NumClients h = size (clients h).

(** The event that carries one new transaction, with the orders in which
    the two loops of that turn walk the registry. *)
Definition tx_event (e : MempoolTx * list nat * list nat) : Event :=
  RecvHubRelay (Some {| Signal := SigNewTx; Msg := MsgMempoolTxPtr (Some e.1.1) |})
               e.1.2 e.2.




Section ReceiveLoopRun.

Variable ValidateSubscription : string → HubSignal * MsgValue * bool.
Variable DecodeRawTransaction : string → option string + string.
Variable SendRawTransaction : string → string + string.


End ReceiveLoopRun.

(** The event ids [receiveLoop] answers. *)
Definition answered_ids : list string :=
  ["subscribe"; "unsubscribe"; "decodetx"; "sendtx"; "getmempooltxs"].

(** Modelled from the spec: [pstypes.ValidateSubscription], which is not
    among the sources.  The spec gives the grammar of a subscription: a
    bare kind name ([newblock], [newtxs], [mempool], [ping]) or
    [address:<address-string>]. *)
Definition ValidateSubscription_model (text : string) : HubSignal * MsgValue * bool :=
  if String.eqb text "newblock" then (SigNewBlock, MsgNil, true)
  else if String.eqb text "newtxs" then (SigNewTxs, MsgNil, true)
  else if String.eqb text "mempool" then (SigMempoolUpdate, MsgNil, true)
  else if String.eqb text "ping" then (SigPingAndUserCount, MsgNil, true)
  else if String.prefix "address:" text
       then (SigAddressTx,
             MsgAddressPtr
               (Some {| Address := String.substring 8 (String.length text - 8) text;
                        TxHash := "" |}),
             true)
       else (SigOther 0, MsgNil, false).

(** A data source without a node behind it, for concrete runs. *)
Definition no_node (_ : string) : string + string := inr "no node".
Definition no_decoder (_ : string) : option string + string := inr "no node".


(** ** The demo client (pubsub/democlient/main.go) *)

Module democlient.

(** [strInSlice]: whether [str] is in [sl], and the index of its first
    occurrence, [-1] if there is none.  [i] is the index of the head of
    [sl] in the slice the search started on. *)
Fixpoint strInSlice_from (i : Z) (sl : list string) (str : string) : bool * Z :=
  match sl with
  | [] => (false, (-1)%Z)
  | s :: rest =>
      if String.eqb s str then (true, i) else strInSlice_from (i + 1)%Z rest str
  end.

Definition strInSlice (sl : list string) (str : string) : bool * Z :=
  strInSlice_from 0 sl str.

(** [AnotInB]: the strings of [sA] that are not in [sB]. *)
Fixpoint AnotInB (sA sB : list string) : list string :=
  match sA with
  | [] => []
  | s :: rest =>
      if (strInSlice sB s).1 then AnotInB rest sB else s :: AnotInB rest sB
  end.

(** The closure [subscribe] of [main]: the subscriptions the client
    records afterwards, the requests it made through [cl.Subscribe] (which
    answers [inl] a response or [inr] an error), and the error returned. *)
Fixpoint subscribe (Subscribe : string → string + string)
    (currentSubs newsubs : list string) : list string * list string * error :=
  match newsubs with
  | [] => (currentSubs, [], None)
  | sub :: rest =>
      if (strInSlice currentSubs sub).1 then subscribe Subscribe currentSubs rest
      else
        let currentSubs' := currentSubs ++ [sub] in
        match Subscribe sub with
        | inr err => (currentSubs', [sub], Some ("Failed to subscribe: " +:+ err))
        | inl _ =>
            let '(cs, reqs, e) := subscribe Subscribe currentSubs' rest in
            (cs, sub :: reqs, e)
        end
  end.

(** The closure [unsubscribe] of [main]. *)
Fixpoint unsubscribe (Unsubscribe : string → string + string)
    (currentSubs rmsubs : list string) : list string * list string * error :=
  match rmsubs with
  | [] => (currentSubs, [], None)
  | sub :: rest =>
      let '(subd, i) := strInSlice currentSubs sub in
      if negb subd then unsubscribe Unsubscribe currentSubs rest
      else
        let currentSubs' :=
          take (Z.to_nat i) currentSubs ++ drop (S (Z.to_nat i)) currentSubs in
        match Unsubscribe sub with
        | inr err => (currentSubs', [sub], Some ("Failed to unsubscribe: " +:+ err))
        | inl _ =>
            let '(cs, reqs, e) := unsubscribe Unsubscribe currentSubs' rest in
            (cs, sub :: reqs, e)
        end
  end.

End democlient.

(** A server that accepts every request, for concrete runs. *)
Definition always_ok (s : string) : string + string := inl (s +:+ " ok").

(** * Properties *)

(** ** The subscription registry of one client *)

Lemma client_eq (c1 c2 : client) :
  subs c1 = subs c2 → addrs c1 = addrs c2 → newTxs c1 = newTxs c2 → c1 = c2.
Proof. destruct c1, c2; simpl; intros; subst; reflexivity. Qed.

(** [isSubscribed] does not look at the transaction buffer. *)
Lemma isSubscribed_set_newTxs (c : client) (l : txList.t) (msg : HubMessage) :
  isSubscribed (set_newTxs c l) msg = isSubscribed c msg.
Proof. reflexivity. Qed.

(** The cases of the repository's own [Test_client_subscribe]. *)
Example Test_client_subscribe_ok_newtx :
  snd <$> subscribe newClient {| Signal := SigNewTx; Msg := MsgNil |} = Some None.
Proof. reflexivity. Qed.

Example Test_client_subscribe_ok_addr :
  snd <$> subscribe newClient
    {| Signal := SigAddressTx;
       Msg := MsgAddressPtr (Some {| Address := "DsfX4WrSecUwGoRd9B7Lz1JjYssYaVKnjGC";
                                     TxHash := "" |}) |}
  = Some None.
Proof. reflexivity. Qed.

Example Test_client_subscribe_bad_addr_value :
  snd <$> subscribe newClient
    {| Signal := SigAddressTx;
       Msg := MsgAddressVal {| Address := "DsfX4WrSecUwGoRd9B7Lz1JjYssYaVKnjGC";
                               TxHash := "" |} |}
  = Some (Some "msg.Msg not a string (SigAddressTx): types.AddressMessage").
Proof. reflexivity. Qed.

Example Test_client_subscribe_bad_addr_nil :
  snd <$> subscribe newClient {| Signal := SigAddressTx; Msg := MsgNil |}
  = Some (Some "msg.Msg not a string (SigAddressTx): <nil>").
Proof. reflexivity. Qed.

(** Subscribing succeeds on every well-formed request, and subscribing a
    second time to the same kind and filter changes nothing. *)
Lemma subscribe_idempotent (c : client) (msg : HubMessage) :
  wellformed_request msg = true →
  ∃ c1, subscribe c msg = Some (c1, None) ∧ subscribe c1 msg = Some (c1, None).
Proof.
  unfold wellformed_request, subscribe.
  destruct msg as [sig v]; simpl.
  destruct sig; try destruct v as [|[am|]| | | |]; try discriminate; intros _;
    simpl; eexists; (split; [reflexivity|]); do 2 f_equal;
    apply client_eq; simpl; try reflexivity; set_solver.
Qed.

(** Unsubscribing succeeds on every well-formed request. *)
Lemma unsubscribe_succeeds (c : client) (msg : HubMessage) :
  wellformed_request msg = true → ∃ c1, unsubscribe c msg = Some (c1, None).
Proof.
  unfold wellformed_request, unsubscribe.
  destruct msg as [sig v]; simpl.
  destruct sig; try destruct v as [|[am|]| | | |]; try discriminate; intros _;
    simpl; eexists; reflexivity.
Qed.

(** Unsubscribing is a no-op when neither the kind nor, for address
    activity, the address is in the client's sets. *)
Lemma unsubscribe_absent_noop (c : client) (msg : HubMessage) :
  wellformed_request msg = true →
  Signal msg ∉ subs c →
  (∀ am, Msg msg = MsgAddressPtr (Some am) → Address am ∉ addrs c) →
  unsubscribe c msg = Some (c, None).
Proof.
  unfold wellformed_request, unsubscribe.
  destruct msg as [sig v]; simpl.
  destruct sig; try destruct v as [|[am|]| | | |]; try discriminate;
    intros _ Hs Ha; simpl; do 2 f_equal; apply client_eq; simpl;
    try reflexivity; try (specialize (Ha am eq_refl)); set_solver.
Qed.

Lemma client_B_subscribed : (fst <$> subscribe newClient (addr_msg "B")) = Some client_B.
Proof.
  reflexivity.
Qed.

(** C7 (the code departs from the claim): a client subscribed to address
    "B" unsubscribes from address "A", to which it never subscribed.  The
    call reports success, but it is not a no-op: the address-activity kind
    leaves the subscribed set, and events for "B", delivered before, are no
    longer delivered. *)
Theorem C7_unsubscribe_unsubscribed_filter_changes_state :
  isSubscribed client_B (addr_msg "A") = Some false ∧
  isSubscribed client_B (addr_msg "B") = Some true ∧
  ∃ c', unsubscribe client_B (addr_msg "A") = Some (c', None) ∧
        c' ≠ client_B ∧
        subs c' = ∅ ∧ addrs c' = {[ "B" ]} ∧
        isSubscribed c' (addr_msg "B") = Some false.
Proof.
  split; [reflexivity|]. split; [reflexivity|].
  eexists; split; [reflexivity|].
  split; [|split; [|split]]; [| reflexivity ..].
  intros Heq. apply (f_equal subs) in Heq. simpl in Heq. set_solver.
Qed.

(** [isSubscribed] on an address-activity event that carries an address. *)
Lemma isSubscribed_address (c : client) (am : AddressMessage) :
  isSubscribed c {| Signal := SigAddressTx; Msg := MsgAddressPtr (Some am) |}
  = Some (bool_decide (SigAddressTx ∈ subs c ∧ Address am ∈ addrs c)).
Proof.
  unfold isSubscribed, isSubscribed_log; simpl.
  destruct (decide (SigAddressTx ∈ subs c)) as [Hs|Hs].
  - rewrite (bool_decide_eq_true_2 _ Hs); simpl. f_equal.
    apply bool_decide_ext. tauto.
  - rewrite (bool_decide_eq_false_2 _ Hs); simpl. f_equal.
    symmetry. apply bool_decide_eq_false_2. tauto.
Qed.

(** C8 as stated fails on two payloads that are not address messages.  For
    a client that has not subscribed to address activity, [isSubscribed]
    returns before it looks at the payload and logs nothing; and for a
    subscribed client a nil [*AddressMessage] passes the type assertion and
    is then dereferenced, which panics. *)
Lemma C8_counterexample :
  wellformed_address MsgNil = false ∧
  isSubscribed_log newClient {| Signal := SigAddressTx; Msg := MsgNil |}
    = Some (false, []) ∧
  wellformed_address (MsgAddressPtr None) = false ∧
  isSubscribed client_B {| Signal := SigAddressTx; Msg := MsgAddressPtr None |}
    = None.
Proof. repeat split. Qed.

(** C8 (amended): on an address-activity event carrying an address,
    [isSubscribed] is true exactly when the kind is in the subscribed set
    and the address in the address set; on every other kind it is true
    exactly when the kind is in the subscribed set; and on an
    address-activity event whose payload has any dynamic type other than
    [*AddressMessage] it returns false without panicking, with an error
    line logged when the client is subscribed to the kind and no line
    otherwise. *)
Theorem C8_isSubscribed_spec (c : client) :
  (∀ am,
     isSubscribed c {| Signal := SigAddressTx; Msg := MsgAddressPtr (Some am) |}
     = Some (bool_decide (SigAddressTx ∈ subs c ∧ Address am ∈ addrs c))) ∧
  (∀ sig v, sig ≠ SigAddressTx →
     isSubscribed c {| Signal := sig; Msg := v |}
     = Some (bool_decide (sig ∈ subs c))) ∧
  (∀ v, (∀ p, v ≠ MsgAddressPtr p) →
     isSubscribed_log c {| Signal := SigAddressTx; Msg := v |}
     = Some (false,
             if bool_decide (SigAddressTx ∈ subs c)
             then [not_AddressMessage_line v] else [])).
Proof.
  split; [|split]; [apply isSubscribed_address | |];
    unfold isSubscribed, isSubscribed_log; simpl.
  - intros sig v Hsig. destruct (decide (sig ∈ subs c)) as [Hs|Hs].
    + rewrite (bool_decide_eq_true_2 _ Hs); simpl.
      destruct sig; try reflexivity. congruence.
    + rewrite (bool_decide_eq_false_2 _ Hs); reflexivity.
  - intros v Hv. destruct (decide (SigAddressTx ∈ subs c)) as [Hs|Hs].
    + rewrite (bool_decide_eq_true_2 _ Hs); simpl.
      destruct v; try reflexivity. exfalso. eapply Hv. reflexivity.
    + rewrite (bool_decide_eq_false_2 _ Hs); reflexivity.
Qed.

Lemma C8_isSubscribed_spec_witness :
  isSubscribed client_B (addr_msg "B") = Some true ∧
  isSubscribed client_B {| Signal := SigNewBlock; Msg := MsgNil |} = Some false ∧
  isSubscribed_log client_B {| Signal := SigAddressTx; Msg := MsgString "B" |}
  = Some (false, [not_AddressMessage_line (MsgString "B")]).
Proof.
  destruct (C8_isSubscribed_spec client_B) as (Haddr & Hkind & Hbad).
  split; [|split].
  - unfold addr_msg. rewrite Haddr. reflexivity.
  - rewrite Hkind; [reflexivity | discriminate].
  - rewrite Hbad; [reflexivity | discriminate].
Defined.

(** C10: a client subscribed to the activity of two distinct addresses
    that unsubscribes from one of them loses the address-activity kind
    altogether: events for the other address are no longer accepted,
    although that address is still in the client's address set. *)
Theorem C10_unsubscribe_one_address_drops_kind
    (c : client) (amA amB : AddressMessage) :
  Address amA ≠ Address amB →
  SigAddressTx ∈ subs c →
  Address amA ∈ addrs c →
  Address amB ∈ addrs c →
  isSubscribed c {| Signal := SigAddressTx; Msg := MsgAddressPtr (Some amB) |}
    = Some true ∧
  ∃ c', unsubscribe c {| Signal := SigAddressTx; Msg := MsgAddressPtr (Some amA) |}
          = Some (c', None) ∧
        (SigAddressTx ∉ subs c') ∧
        Address amB ∈ addrs c' ∧
        isSubscribed c' {| Signal := SigAddressTx; Msg := MsgAddressPtr (Some amB) |}
          = Some false.
Proof.
  intros Hne Hs Ha Hb. split.
  - rewrite isSubscribed_address.
    f_equal. apply bool_decide_eq_true_2. tauto.
  - eexists. split; [reflexivity|]. simpl.
    split; [set_solver|]. split; [set_solver|].
    rewrite isSubscribed_address. simpl.
    f_equal. apply bool_decide_eq_false_2. set_solver.
Qed.


Lemma C10_unsubscribe_one_address_drops_kind_witness :
  isSubscribed client_AB (addr_msg "B") = Some true ∧
  ∃ c', unsubscribe client_AB (addr_msg "A") = Some (c', None) ∧
        (SigAddressTx ∉ subs c') ∧
        "B" ∈ addrs c' ∧
        isSubscribed c' (addr_msg "B") = Some false.
Proof.
  apply (C10_unsubscribe_one_address_drops_kind client_AB
           {| Address := "A"; TxHash := "" |} {| Address := "B"; TxHash := "" |});
    simpl; [discriminate | set_solver ..].
Defined.

(** ** The per-client buffer of new transactions *)

(** Appending never drops or reorders what the buffer holds, and reports
    ready exactly when the new length is at least [NewTxBufferSize]. *)
Lemma txList_addTxToBuffer_spec (tl : txList.t) (tx : ptr MempoolTx) :
  txList.addTxToBuffer tl tx
  = (tl ++ [tx], bool_decide (NewTxBufferSize ≤ S (length tl))).
Proof.
  unfold txList.addTxToBuffer. f_equal. apply bool_decide_ext.
  rewrite length_app. simpl. lia.
Qed.

(** A subscribed client's send pump, handed a valid batched event, pushes
    the whole buffer in arrival order and starts an empty one. *)
Lemma sendLoop_turn_drains (IsValid : HubMessage → bool) (c : client)
    (sig : HubMessage) (bi inv : bool) (n : nat) :
  Signal sig = SigNewTxs → IsValid sig = true → SigNewTxs ∈ subs c →
  newTxs c ≠ [] →
  sendLoop_turn IsValid c (SelSig (Some sig)) bi inv n true
  = Some {| turn_client := set_newTxs c [];
            turn_sent := [ {| pushSignal := SigNewTxs; pushBody := BodyTxs (newTxs c) |} ];
            turn_ctl := LoopContinue |}.
Proof.
  intros Hsig Hv Hs Hne. unfold sendLoop_turn. rewrite Hv. simpl.
  unfold isSubscribed, isSubscribed_log, sendLoop_switch. rewrite Hsig.
  rewrite (bool_decide_eq_true_2 _ Hs). simpl.
  rewrite bool_decide_eq_false_2; [reflexivity|].
  destruct (newTxs c); [congruence | discriminate].
Qed.

(** C4: from an empty buffer the first four appends report not ready and
    the fifth reports ready; the send pump's batched-transactions case then
    pushes exactly the five items in arrival order and leaves the buffer
    empty; and on an empty buffer that case pushes nothing and the loop
    simply goes round again. *)
Theorem C4_buffer_coalescing
    (IsValid : HubMessage → bool) (c : client)
    (t1 t2 t3 t4 t5 : ptr MempoolTx) (m : MsgValue)
    (bi inv : bool) (n : nat) (send_ok : bool) :
  let a1 := txList.addTxToBuffer (txList.newTxList NewTxBufferSize) t1 in
  let a2 := txList.addTxToBuffer a1.1 t2 in
  let a3 := txList.addTxToBuffer a2.1 t3 in
  let a4 := txList.addTxToBuffer a3.1 t4 in
  let a5 := txList.addTxToBuffer a4.1 t5 in
  let batch := {| Signal := SigNewTxs; Msg := m |} in
  a1.2 = false ∧ a2.2 = false ∧ a3.2 = false ∧ a4.2 = false ∧ a5.2 = true ∧
  a5.1 = [t1; t2; t3; t4; t5] ∧
  sendLoop_switch (set_newTxs c a5.1) batch bi inv n
    = DoPush (set_newTxs c []) (BodyTxs [t1; t2; t3; t4; t5]) ∧
  sendLoop_switch (set_newTxs c []) batch bi inv n = Skip ∧
  sendLoop_turn IsValid (set_newTxs c []) (SelSig (Some batch)) bi inv n send_ok
    = Some {| turn_client := set_newTxs c []; turn_sent := [];
              turn_ctl := LoopContinue |}.
Proof.
  simpl. repeat (split; [reflexivity|]).
  unfold sendLoop_turn.
  destruct (IsValid _); [|reflexivity]. simpl.
  unfold isSubscribed, isSubscribed_log. simpl.
  destruct (bool_decide (SigNewTxs ∈ subs c)); reflexivity.
Qed.

(** ** Registration and unregistration *)

Lemma hub3_ok : hub_ok hub3.
Proof. split; [|reflexivity]. refine (bool_decide_unpack _ _). vm_compute. exact I. Qed.

Lemma hub3_order : range_order (clients hub3) [0; 1; 2]%nat.
Proof.
  split; [refine (bool_decide_unpack _ _); vm_compute; exact I|].
  refine (bool_decide_unpack _ _). vm_compute. exact I.
Qed.

Lemma spoke_open_Some (h : WebsocketHub) (k : nat) :
  spoke_open h k = true ↔ ∃ ch, spokes h !! k = Some ch ∧ closed ch = false.
Proof.
  unfold spoke_open. destruct (spokes h !! k) as [ch|]; split.
  - intros H. exists ch. split; [reflexivity|]. destruct (closed ch); [discriminate|reflexivity].
  - intros (ch' & [= <-] & ->). reflexivity.
  - discriminate.
  - intros (ch' & [=] & _).
Qed.

Lemma hub_ok_lookup (h : WebsocketHub) (k : nat) (cl : client) :
  hub_ok h → clients h !! k = Some cl →
  ∃ ch, spokes h !! k = Some ch ∧ closed ch = false.
Proof.
  intros [Hall _] Hk. apply spoke_open_Some. exact (Hall k cl Hk).
Qed.

Lemma unregisterClient_absent (h : WebsocketHub) (c : nat) :
  clients h !! c = None → unregisterClient h c = Some h.
Proof. intros H. unfold unregisterClient. rewrite H. reflexivity. Qed.

Lemma unregisterClient_present (h : WebsocketHub) (c : nat) (cl : client) (ch : hubSpoke) :
  clients h !! c = Some cl → spokes h !! c = Some ch → closed ch = false →
  unregisterClient h c
  = Some (set_spokes
            (setNumClients (set_clients h (delete c (clients h)))
               (size (delete c (clients h))))
            (<[c := {| queue := queue ch; cap := cap ch; closed := true |}]> (spokes h))).
Proof.
  intros Hc Hs Ho. unfold unregisterClient. rewrite Hc. simpl.
  rewrite Hs. simpl. unfold close_chan. rewrite Ho. reflexivity.
Qed.

(** C6: on a running hub, unregistering a key twice is safe.  The first
    call succeeds and leaves the key absent, with its channel closed if it
    was registered; the second call returns the hub it was given, so it
    changes nothing, does not panic and closes no channel. *)
Theorem C6_unregister_twice (h : WebsocketHub) (c : nat) :
  hub_ok h →
  ∃ h1, unregisterClient h c = Some h1 ∧
        clients h1 !! c = None ∧
        (is_Some (clients h !! c) →
         ∃ ch, spokes h1 !! c = Some ch ∧ closed ch = true) ∧
        unregisterClient h1 c = Some h1.
Proof.
  intros Hok. destruct (clients h !! c) as [cl|] eqn:Hc.
  - destruct (hub_ok_lookup h c cl Hok Hc) as (ch & Hs & Ho).
    eexists. split; [exact (unregisterClient_present h c cl ch Hc Hs Ho)|].
    assert (Habs : delete c (clients h) !! c = None) by apply lookup_delete_eq.
    split; [exact Habs|]. split.
    + intros _. eexists. split; [apply lookup_insert_eq | reflexivity].
    + apply unregisterClient_absent. exact Habs.
  - exists h. rewrite (unregisterClient_absent h c Hc).
    split; [reflexivity|]. split; [exact Hc|]. split; [|reflexivity].
    intros [? [=]].
Qed.

Lemma C6_unregister_twice_witness :
  ∃ h1, unregisterClient hub3 1%nat = Some h1 ∧
        clients h1 !! 1%nat = None ∧
        (is_Some (clients hub3 !! 1%nat) →
         ∃ ch, spokes h1 !! 1%nat = Some ch ∧ closed ch = true) ∧
        unregisterClient h1 1%nat = Some h1.
Proof. exact (C6_unregister_twice hub3 1%nat hub3_ok). Defined.

(** ** Fan-out *)

Lemma isSubscribed_no_panic (cl : client) (hubMsg : HubMessage) :
  no_nil_address hubMsg → is_Some (isSubscribed cl hubMsg).
Proof.
  unfold no_nil_address, isSubscribed, isSubscribed_log.
  destruct hubMsg as [sig v]; simpl. intros Hn.
  destruct (bool_decide (sig ∈ subs cl)); simpl; [|eauto].
  destruct sig; simpl; eauto.
  destruct v as [|[am|]| | | |]; simpl; eauto.
  exfalso. exact (Hn eq_refl eq_refl).
Qed.

Lemma untouched_refl (h : WebsocketHub) (k : nat) : untouched h h k.
Proof. split; reflexivity. Qed.

Lemma untouched_trans (h1 h2 h3 : WebsocketHub) (k : nat) :
  untouched h1 h2 k → untouched h2 h3 k → untouched h1 h3 k.
Proof. intros [Hc Hs] [Hc' Hs']. split; congruence. Qed.

Lemma fanout_at_before (hubMsg : HubMessage) (h1 h2 h' : WebsocketHub) (k : nat) :
  untouched h1 h2 k → fanout_at hubMsg h2 h' k → fanout_at hubMsg h1 h' k.
Proof.
  intros [Hc Hs]. unfold fanout_at, enqueued, evicted, untouched.
  rewrite Hc, Hs. tauto.
Qed.

Lemma fanout_at_after (hubMsg : HubMessage) (h h1 h2 : WebsocketHub) (k : nat) :
  untouched h1 h2 k → fanout_at hubMsg h h1 k → fanout_at hubMsg h h2 k.
Proof.
  intros [Hc Hs]. unfold fanout_at, enqueued, evicted, untouched.
  rewrite Hc, Hs. tauto.
Qed.

(** The loop body on a registered client. *)
Lemma signal_or_unregister_spec (hubMsg : HubMessage) (h : WebsocketHub)
    (k : nat) (cl : client) :
  hub_ok h → clients h !! k = Some cl → is_Some (isSubscribed cl hubMsg) →
  ∃ h', signal_or_unregister hubMsg h k cl = Some h' ∧
        hub_ok h' ∧
        fanout_at hubMsg h h' k ∧
        (∀ j, j ≠ k → untouched h h' j) ∧
        (∀ j cl', clients h' !! j = Some cl' → clients h !! j = Some cl') ∧
        timeToSendTxBuffer h' = timeToSendTxBuffer h ∧
        bufferTickerChan h' = bufferTickerChan h.
Proof.
  intros Hok Hk [b Hb].
  destruct (hub_ok_lookup h k cl Hok Hk) as (ch & Hs & Ho).
  unfold signal_or_unregister, fanout_at. rewrite Hk, Hb. simpl.
  destruct b; simpl.
  2:{ exists h. repeat split; auto using untouched_refl; apply Hok. }
  rewrite Hs. simpl. unfold trySend. rewrite Ho.
  destruct (bool_decide (length (queue ch) < cap ch)) eqn:Hfree; simpl.
  - eexists. split; [reflexivity|]. split; [|split; [|split; [|split; [|split]]]];
      try reflexivity.
    + destruct Hok as [Hall Hq]. split; [|exact Hq].
      intros j clj Hj. unfold spoke_open. simpl.
      destruct (decide (j = k)) as [->|Hne].
      * rewrite lookup_insert_eq. reflexivity.
      * rewrite lookup_insert_ne by congruence. exact (Hall j clj Hj).
    + exists ch. split; [first [exact Hs | reflexivity]|]. rewrite Hfree.
      split; [reflexivity|]. exists ch. split; [first [exact Hs | reflexivity]|].
      simpl. apply lookup_insert_eq.
    + intros j Hne. split; [reflexivity|]. simpl.
      apply lookup_insert_ne. congruence.
    + auto.
  - rewrite (unregisterClient_present h k cl ch Hk Hs Ho).
    eexists. split; [reflexivity|]. split; [|split; [|split; [|split; [|split]]]];
      try reflexivity.
    + destruct Hok as [Hall Hq]. split; [|exact Hq].
      intros j clj Hj. unfold spoke_open. simpl in *.
      apply lookup_delete_Some in Hj as [Hne Hj].
      rewrite lookup_insert_ne by congruence. exact (Hall j clj Hj).
    + exists ch. split; [first [exact Hs | reflexivity]|]. rewrite Hfree.
      split; [simpl; apply lookup_delete_eq|].
      exists ch. split; [first [exact Hs | reflexivity]|]. split; [exact Ho|].
      simpl. apply lookup_insert_eq.
    + intros j Hne. split; simpl.
      * apply lookup_delete_ne. congruence.
      * apply lookup_insert_ne. congruence.
    + simpl. intros j cl' Hj. apply lookup_delete_Some in Hj as [_ Hj]. exact Hj.
Qed.

(** One whole fan-out round. *)
Lemma fanout_spec (hubMsg : HubMessage) (order : list nat) :
  ∀ h, hub_ok h → NoDup order →
       (∀ k cl, clients h !! k = Some cl → is_Some (isSubscribed cl hubMsg)) →
  ∃ h', fanout hubMsg order h = Some h' ∧
        hub_ok h' ∧
        (∀ k, k ∈ order → fanout_at hubMsg h h' k) ∧
        (∀ j, j ∉ order → untouched h h' j) ∧
        (∀ j cl', clients h' !! j = Some cl' → clients h !! j = Some cl') ∧
        timeToSendTxBuffer h' = timeToSendTxBuffer h ∧
        bufferTickerChan h' = bufferTickerChan h.
Proof.
  unfold fanout.
  induction order as [|k rest IH]; intros h Hok Hnd Hsub; simpl.
  - exists h. repeat split; auto using untouched_refl; try apply Hok.
    intros k Hk. inversion Hk.
  - apply NoDup_cons in Hnd as [Hk Hnd].
    destruct (clients h !! k) as [cl|] eqn:Hc.
    + destruct (signal_or_unregister_spec hubMsg h k cl Hok Hc (Hsub k cl Hc))
        as (h1 & Hbody & Hok1 & Hat & Hother & Hsubset & Ht1 & Hb1).
      rewrite Hbody. simpl.
      destruct (IH h1 Hok1 Hnd) as (h' & Hrun & Hok' & Hin & Hout & Hsubset' & Ht & Hb).
      { intros j clj Hj. eapply Hsub. eapply Hsubset. exact Hj. }
      exists h'. split; [exact Hrun|]. split; [exact Hok'|].
      split; [|split; [|split; [|split]]].
      * intros j Hj. apply elem_of_cons in Hj as [->|Hj].
        -- eapply fanout_at_after; [apply Hout; exact Hk | exact Hat].
        -- eapply fanout_at_before; [|apply Hin; exact Hj].
           apply Hother. intros ->. contradiction.
      * intros j Hj. apply not_elem_of_cons in Hj as [Hne Hj].
        eapply untouched_trans; [apply Hother; exact Hne | apply Hout; exact Hj].
      * intros j clj Hj. apply Hsubset, Hsubset'. exact Hj.
      * congruence.
      * congruence.
    + destruct (IH h Hok Hnd Hsub) as (h' & Hrun & Hok' & Hin & Hout & Hsubset' & Ht & Hb).
      exists h'. split; [exact Hrun|]. split; [exact Hok'|].
      split; [|split; [|split; [|split]]]; auto.
      * intros j Hj. apply elem_of_cons in Hj as [->|Hj]; [|apply Hin; exact Hj].
        unfold fanout_at. rewrite Hc. apply Hout. exact Hk.
      * intros j Hj. apply not_elem_of_cons in Hj as [Hne Hj]. apply Hout. exact Hj.
Qed.

Lemma range_order_elem (m : gmap nat client) (order : list nat) (k : nat) :
  range_order m order → (k ∈ order ↔ is_Some (m !! k)).
Proof.
  intros [_ Hdom]. rewrite <- elem_of_dom, <- Hdom. symmetry. apply elem_of_list_to_set.
Qed.

Lemma isSubscribed_all (hubMsg : HubMessage) (h : WebsocketHub) :
  no_nil_address hubMsg →
  ∀ k cl, clients h !! k = Some cl → is_Some (isSubscribed cl hubMsg).
Proof. intros Hn k cl _. apply isSubscribed_no_panic. exact Hn. Qed.

(** The channel that [NewClientHubSpoke] makes is open, empty, and has
    room for sixteen messages. *)
Lemma NewClientHubSpoke_channel (h : WebsocketHub) :
  spokes (NewClientHubSpoke h).2 !! c (NewClientHubSpoke h).1
  = Some {| queue := []; cap := 16; closed := false |}.
Proof. unfold NewClientHubSpoke. simpl. apply lookup_insert_eq. Qed.

(** C5: one fan-out round on a running hub never blocks or panics, and for
    every registered client subscribed to the event: if its delivery
    channel has room the event is appended to it and the client stays
    registered; if the channel is full the client is removed from the
    registry and its channel closed.  This holds for each client whatever
    happens to the others, so a full channel costs no other client the
    event.  Clients that are not subscribed are left alone.  (Delivery
    channels are made with room for sixteen messages,
    [NewClientHubSpoke_channel].) *)
Theorem C5_fanout_backpressure
    (hubMsg : HubMessage) (order : list nat) (h : WebsocketHub) :
  hub_ok h → range_order (clients h) order → no_nil_address hubMsg →
  ∃ h', fanout hubMsg order h = Some h' ∧
        ∀ k cl ch, clients h !! k = Some cl → spokes h !! k = Some ch →
          (isSubscribed cl hubMsg = Some true →
           (length (queue ch) < cap ch)%nat → enqueued hubMsg h h' k) ∧
          (isSubscribed cl hubMsg = Some true →
           (cap ch ≤ length (queue ch))%nat → evicted h h' k) ∧
          (isSubscribed cl hubMsg = Some false → untouched h h' k).
Proof.
  intros Hok Hord Hn.
  destruct (fanout_spec hubMsg order h Hok (proj1 Hord) (isSubscribed_all hubMsg h Hn))
    as (h' & Hrun & _ & Hin & _).
  exists h'. split; [exact Hrun|].
  intros k cl ch Hk Hs.
  assert (Hat : fanout_at hubMsg h h' k).
  { apply Hin. apply (range_order_elem _ _ _ Hord). eauto. }
  unfold fanout_at in Hat. rewrite Hk in Hat.
  split; [|split]; intros Hsub; rewrite Hsub in Hat.
  - intros Hfree. destruct Hat as (ch' & Hs' & Hat).
    assert (ch' = ch) as -> by congruence.
    rewrite bool_decide_eq_true_2 in Hat by exact Hfree. exact Hat.
  - intros Hfull. destruct Hat as (ch' & Hs' & Hat).
    assert (ch' = ch) as -> by congruence.
    rewrite bool_decide_eq_false_2 in Hat by lia. exact Hat.
  - exact Hat.
Qed.

Lemma C5_fanout_backpressure_witness :
  ∃ h', fanout newblock [0; 1; 2]%nat hub3 = Some h' ∧
        enqueued newblock hub3 h' 0 ∧ evicted hub3 h' 1 ∧ enqueued newblock hub3 h' 2.
Proof.
  assert (Hn : no_nil_address newblock) by (intros H; discriminate H).
  destruct (C5_fanout_backpressure newblock [0; 1; 2]%nat hub3 hub3_ok hub3_order Hn)
    as (h' & Hrun & Hall).
  exists h'. split; [exact Hrun|]. split; [|split].
  - apply (proj1 (Hall 0%nat (subscriber SigNewBlock) (make_hubSpoke hubSpokeSize)
                    eq_refl eq_refl)); [reflexivity | simpl; unfold hubSpokeSize; lia].
  - apply (proj1 (proj2 (Hall 1%nat (subscriber SigNewBlock)
                    {| queue := replicate 16 ping; cap := hubSpokeSize; closed := false |}
                    eq_refl eq_refl))); [reflexivity | simpl; unfold hubSpokeSize; lia].
  - apply (proj1 (Hall 2%nat (subscriber SigNewBlock) (make_hubSpoke hubSpokeSize)
                    eq_refl eq_refl)); [reflexivity | simpl; unfold hubSpokeSize; lia].
Defined.


(** ** New transactions *)

Lemma addTxToBuffer_range_cons_Some (tx : ptr MempoolTx) (k : nat) (rest : list nat)
    (h : WebsocketHub) (r0 : bool) (cl : client) :
  clients h !! k = Some cl →
  addTxToBuffer_range tx (k :: rest) h r0
  = addTxToBuffer_range tx rest
      (set_clients h (<[k := append_tx tx cl]> (clients h))) (ready_after cl).
Proof.
  intros Hk. cbn [addTxToBuffer_range]. rewrite Hk.
  rewrite txList_addTxToBuffer_spec. reflexivity.
Qed.

Lemma addTxToBuffer_range_cons_None (tx : ptr MempoolTx) (k : nat) (rest : list nat)
    (h : WebsocketHub) (r0 : bool) :
  clients h !! k = None →
  addTxToBuffer_range tx (k :: rest) h r0 = addTxToBuffer_range tx rest h r0.
Proof. intros Hk. simpl. rewrite Hk. reflexivity. Qed.

(** The hub's [addTxToBuffer] puts the transaction at the end of the buffer
    of every client the walk visits, and touches nothing else. *)
Lemma addTxToBuffer_range_spec (tx : ptr MempoolTx) (order : list nat) :
  ∀ h r0, NoDup order →
    let res := addTxToBuffer_range tx order h r0 in
    (∀ k, clients res.1 !! k
          = if bool_decide (k ∈ order) then append_tx tx <$> clients h !! k
            else clients h !! k) ∧
    spokes res.1 = spokes h ∧
    quitClosed res.1 = quitClosed h ∧
    timeToSendTxBuffer res.1 = timeToSendTxBuffer h ∧
    bufferTickerChan res.1 = bufferTickerChan h.
Proof.
  induction order as [|k rest IH]; intros h r0 Hnd.
  - simpl. repeat split. 
  - apply NoDup_cons in Hnd as [Hk Hnd].
    destruct (clients h !! k) as [cl|] eqn:Hc.
    + rewrite (addTxToBuffer_range_cons_Some tx k rest h r0 cl Hc).
      specialize (IH (set_clients h (<[k := append_tx tx cl]> (clients h)))
                     (ready_after cl) Hnd).
      simpl in *. destruct IH as (Hcl & Hsp & Hq & Ht & Hb).
      repeat split; try assumption.
      intros j. rewrite Hcl.
      destruct (decide (j = k)) as [->|Hne].
      * rewrite (bool_decide_eq_false_2 _ Hk).
        rewrite bool_decide_eq_true_2 by (apply elem_of_cons; auto).
        rewrite lookup_insert_eq, Hc. reflexivity.
      * rewrite lookup_insert_ne by congruence.
        destruct (decide (j ∈ rest)) as [Hj|Hj].
        -- rewrite (bool_decide_eq_true_2 _ Hj).
           rewrite bool_decide_eq_true_2 by (apply elem_of_cons; auto). reflexivity.
        -- rewrite (bool_decide_eq_false_2 _ Hj).
           rewrite bool_decide_eq_false_2; [reflexivity|].
           intros [?|?]%elem_of_cons; contradiction.
    + rewrite (addTxToBuffer_range_cons_None tx k rest h r0 Hc).
      specialize (IH h r0 Hnd). simpl in *.
      destruct IH as (Hcl & Hsp & Hq & Ht & Hb).
      repeat split; try assumption.
      intros j. rewrite Hcl.
      destruct (decide (j = k)) as [->|Hne].
      * rewrite (bool_decide_eq_false_2 _ Hk).
        rewrite bool_decide_eq_true_2 by (apply elem_of_cons; auto).
        rewrite Hc. reflexivity.
      * destruct (decide (j ∈ rest)) as [Hj|Hj].
        -- rewrite (bool_decide_eq_true_2 _ Hj).
           rewrite bool_decide_eq_true_2 by (apply elem_of_cons; auto). reflexivity.
        -- rewrite (bool_decide_eq_false_2 _ Hj).
           rewrite bool_decide_eq_false_2; [reflexivity|].
           intros [?|?]%elem_of_cons; contradiction.
Qed.

(** The flag the hub's [addTxToBuffer] returns is the one computed for the
    client visited last: each turn of its loop assigns the result afresh. *)
Lemma addTxToBuffer_range_flag (tx : ptr MempoolTx) (k : nat) (cl : client)
    (before : list nat) :
  ∀ h r0, NoDup (before ++ [k]) → clients h !! k = Some cl →
    (addTxToBuffer_range tx (before ++ [k]) h r0).2 = ready_after cl.
Proof.
  induction before as [|j before IH]; intros h r0 Hnd Hk.
  - change ([] ++ [k]) with [k].
    rewrite (addTxToBuffer_range_cons_Some tx k [] h r0 cl Hk). reflexivity.
  - rewrite <- app_comm_cons in *. apply NoDup_cons in Hnd as [Hj Hnd].
    assert (j ≠ k) by (intros ->; apply Hj, elem_of_app; right; apply list_elem_of_here).
    destruct (clients h !! j) as [clj|] eqn:Hc.
    + rewrite (addTxToBuffer_range_cons_Some tx j _ h r0 clj Hc).
      apply IH; [exact Hnd|]. simpl. rewrite lookup_insert_ne by congruence. exact Hk.
    + rewrite (addTxToBuffer_range_cons_None tx j _ h r0 Hc). apply IH; assumption.
Qed.

Lemma hub_ok_same_keys (h h1 : WebsocketHub) :
  hub_ok h →
  (∀ k, is_Some (clients h1 !! k) → is_Some (clients h !! k)) →
  (∀ k, is_Some (clients h1 !! k) → spokes h1 !! k = spokes h !! k) →
  quitClosed h1 = quitClosed h →
  hub_ok h1.
Proof.
  intros [Hall Hq] Hkeys Hsp Hq1. split; [|congruence].
  intros k cl Hk. unfold spoke_open. rewrite Hsp by eauto.
  destruct (Hkeys k) as [cl0 Hk0]; [eauto|]. exact (Hall k cl0 Hk0).
Qed.

Lemma MaybeSendTxns_spec (tx : ptr MempoolTx) (order : list nat) (h : WebsocketHub) :
  NoDup order →
  let res := MaybeSendTxns tx order h in
  (∀ k, clients res.1 !! k
        = if bool_decide (k ∈ order) then append_tx tx <$> clients h !! k
          else clients h !! k) ∧
  spokes res.1 = spokes h ∧
  quitClosed res.1 = quitClosed h ∧
  timeToSendTxBuffer res.1 = timeToSendTxBuffer h ∧
  res.2 = (addTxToBuffer tx order h).2.
Proof.
  intros Hnd. unfold MaybeSendTxns, addTxToBuffer.
  pose proof (addTxToBuffer_range_spec tx order h false Hnd) as Hspec.
  destruct (addTxToBuffer_range tx order h false) as [h1 r]. simpl in *.
  destruct Hspec as (Hcl & Hsp & Hq & Ht & _).
  destruct r; simpl; repeat split; assumption.
Qed.

Lemma MaybeSendTxns_ok (tx : ptr MempoolTx) (order : list nat) (h : WebsocketHub) :
  NoDup order → hub_ok h → hub_ok (MaybeSendTxns tx order h).1.
Proof.
  intros Hnd Hok.
  destruct (MaybeSendTxns_spec tx order h Hnd) as (Hcl & Hsp & Hq & _).
  apply (hub_ok_same_keys h); [exact Hok | | | exact Hq].
  - intros k. rewrite Hcl. destruct (bool_decide (k ∈ order)); [|auto].
    rewrite fmap_is_Some. auto.
  - intros k _. rewrite Hsp. reflexivity.
Qed.

(** After the hub's [addTxToBuffer] over a whole walk of the registry,
    every registered client has the transaction at the end of its buffer. *)
Lemma MaybeSendTxns_clients (tx : ptr MempoolTx) (order : list nat) (h : WebsocketHub) :
  range_order (clients h) order →
  ∀ k, clients (MaybeSendTxns tx order h).1 !! k = append_tx tx <$> clients h !! k.
Proof.
  intros Hord k.
  destruct (MaybeSendTxns_spec tx order h (proj1 Hord)) as (Hcl & _).
  rewrite Hcl. destruct (decide (k ∈ order)) as [Hk|Hk].
  - rewrite (bool_decide_eq_true_2 _ Hk). reflexivity.
  - rewrite (bool_decide_eq_false_2 _ Hk).
    rewrite (range_order_elem _ _ k Hord) in Hk.
    destruct (clients h !! k); [exfalso; eauto | reflexivity].
Qed.

Lemma Run_send_spec (hubMsg : HubMessage) (order2 : list nat) (h : WebsocketHub) :
  hub_ok h → NoDup order2 → no_nil_address hubMsg →
  ∃ h', Run_send hubMsg order2 h = Some h' ∧
        hub_ok h' ∧
        (∀ k, k ∈ order2 → fanout_at hubMsg h h' k) ∧
        (∀ j, j ∉ order2 → untouched h h' j) ∧
        (∀ j cl', clients h' !! j = Some cl' → clients h !! j = Some cl') ∧
        timeToSendTxBuffer h'
        = (if bool_decide (Signal hubMsg = SigNewTxs) then false
           else timeToSendTxBuffer h).
Proof.
  intros Hok Hnd Hn.
  destruct (fanout_spec hubMsg order2 h Hok Hnd (isSubscribed_all hubMsg h Hn))
    as (h2 & Hrun & Hok2 & Hin & Hout & Hsub & Ht & _).
  unfold Run_send. rewrite Hrun. simpl.
  destruct (bool_decide (Signal hubMsg = SigNewTxs)).
  - exists (SetTimeToSendTxBuffer h2 false). split; [reflexivity|].
    split; [exact Hok2|]. split; [exact Hin|]. split; [exact Hout|].
    split; [exact Hsub | reflexivity].
  - exists h2. split; [reflexivity|].
    split; [exact Hok2|]. split; [exact Hin|]. split; [exact Hout|].
    split; [exact Hsub | exact Ht].
Qed.

(** ** One receive on HubRelay *)

Lemma Run_switch_cases (hubMsg : HubMessage) (order1 : list nat) (h : WebsocketHub) :
  Run_switch hubMsg order1 h = SwContinue ∨
  (Signal hubMsg ≠ SigNewTx ∧ no_nil_address hubMsg ∧
   Run_switch hubMsg order1 h = SwGoOn h false) ∨
  (∃ tx, hubMsg = {| Signal := SigNewTx; Msg := MsgMempoolTxPtr (Some tx) |} ∧
         Run_switch hubMsg order1 h
         = SwGoOn (MaybeSendTxns (Some tx) order1 h).1
                  (MaybeSendTxns (Some tx) order1 h).2).
Proof.
  destruct hubMsg as [sig v]. unfold Run_switch, no_nil_address. simpl.
  destruct sig; try (left; reflexivity);
    try (right; left; split; [discriminate|]; split; [discriminate | reflexivity]).
  - destruct v as [| |a|[tx|]| |]; try (left; reflexivity).
    right; right. exists tx. split; [reflexivity|].
    destruct (MaybeSendTxns (Some tx) order1 h); reflexivity.
  - destruct v as [|[am|]| | | |]; try (left; reflexivity).
    right; left. split; [discriminate|]. split; [|reflexivity]. discriminate.
Qed.

Lemma newtxs_ready_no_nil : no_nil_address newtxs_ready.
Proof. intros H. discriminate H. Qed.

(** On a running hub a receive on [HubRelay] never panics and leaves the
    hub running. *)
Lemma Run_relay_ok (IsValid : HubMessage → bool) (hubMsg : HubMessage)
    (order1 order2 : list nat) (h : WebsocketHub) :
  hub_ok h → NoDup order1 → NoDup order2 →
  ∃ h', Run_relay IsValid hubMsg order1 order2 h = Some h' ∧ hub_ok h'.
Proof.
  intros Hok Hnd1 Hnd2. unfold Run_relay.
  destruct (bool_decide (size (clients h) = 0%nat)); [eauto|].
  destruct (IsValid hubMsg); simpl; [|eauto].
  destruct (Run_switch_cases hubMsg order1 h)
    as [Hsw | [(Hsig & Hn & Hsw) | (tx & -> & Hsw)]]; rewrite Hsw.
  - eauto.
  - rewrite (bool_decide_eq_false_2 _ Hsig).
    destruct (Run_send_spec hubMsg order2 h Hok Hnd2 Hn) as (h' & Hrun & Hok' & _).
    eauto.
  - rewrite bool_decide_eq_true_2 by reflexivity.
    pose proof (MaybeSendTxns_ok (Some tx) order1 h Hnd1 Hok) as Hok1.
    destruct (negb _); [eauto|].
    destruct (Run_send_spec newtxs_ready order2 _ Hok1 Hnd2 newtxs_ready_no_nil)
      as (h' & Hrun & Hok' & _).
    eauto.
Qed.

(** A valid single-new-transaction event on a hub with clients: every
    client still registered afterwards has the transaction at the end of
    its buffer, whatever the length of the buffer was. *)
Lemma Run_relay_newtx_appends (IsValid : HubMessage → bool) (tx : MempoolTx)
    (order1 order2 : list nat) (h : WebsocketHub) :
  let hubMsg := {| Signal := SigNewTx; Msg := MsgMempoolTxPtr (Some tx) |} in
  hub_ok h → range_order (clients h) order1 → NoDup order2 →
  clients h ≠ ∅ → IsValid hubMsg = true →
  ∃ h', Run_relay IsValid hubMsg order1 order2 h = Some h' ∧
        ∀ k cl', clients h' !! k = Some cl' →
                 ∃ cl, clients h !! k = Some cl ∧ cl' = append_tx (Some tx) cl.
Proof.
  intros hubMsg Hok Hord1 Hnd2 Hne Hvalid. unfold Run_relay.
  rewrite bool_decide_eq_false_2 by (rewrite map_size_empty_iff; exact Hne).
  rewrite Hvalid. subst hubMsg. unfold Run_switch. simpl.
  pose proof (MaybeSendTxns_ok (Some tx) order1 h (proj1 Hord1) Hok) as Hok1.
  pose proof (MaybeSendTxns_clients (Some tx) order1 h Hord1) as Hcl.
  destruct (MaybeSendTxns (Some tx) order1 h) as [h1 r]. simpl in *.
  assert (Hback : ∀ k cl', clients h1 !! k = Some cl' →
                           ∃ cl, clients h !! k = Some cl ∧ cl' = append_tx (Some tx) cl).
  { intros k cl' Hk. rewrite Hcl in Hk.
    destruct (clients h !! k) as [cl|]; [|discriminate].
    exists cl. split; [reflexivity|]. simpl in Hk. congruence. }
  destruct (r || TimeToSendTxBuffer h1); simpl.
  2:{ exists h1. split; [reflexivity | exact Hback]. }
  destruct (Run_send_spec newtxs_ready order2 h1 Hok1 Hnd2 newtxs_ready_no_nil)
    as (h' & Hrun & _ & _ & _ & Hsub & _).
  exists h'. split; [exact Hrun|].
  intros k cl' Hk. apply Hback, Hsub, Hk.
Qed.

(** ** Shutdown *)

Lemma unregisterAllClients_loop_spec (l : list nat) :
  ∀ h, NoDup l → (∀ k, k ∈ l → spoke_open h k = true) →
  ∃ h', unregisterAllClients_loop l h = Some h' ∧
        (∀ j, clients h' !! j = if bool_decide (j ∈ l) then None else clients h !! j) ∧
        (∀ j, j ∈ l →
              ∃ ch, spokes h !! j = Some ch ∧ closed ch = false ∧
                    spokes h' !! j
                    = Some {| queue := queue ch; cap := cap ch; closed := true |}) ∧
        (∀ j, j ∉ l → spokes h' !! j = spokes h !! j).
Proof.
  induction l as [|c0 rest IH]; intros h Hnd Hopen.
  - exists h. split; [reflexivity|]. split; [|split]; auto.
    intros j Hj. inversion Hj.
  - apply NoDup_cons in Hnd as [Hc0 Hnd].
    destruct (proj1 (spoke_open_Some h c0)) as (ch & Hs & Ho).
    { apply Hopen. apply list_elem_of_here. }
    cbn [unregisterAllClients_loop]. simpl. rewrite Hs. simpl.
    unfold close_chan. rewrite Ho. simpl.
    set (h1 := set_spokes _ _).
    destruct (IH h1 Hnd) as (h' & Hrun & Hcl & Hin & Hout).
    { intros k Hk. unfold spoke_open, h1. simpl.
      rewrite lookup_insert_ne by (intros ->; contradiction).
      apply Hopen. apply list_elem_of_further. exact Hk. }
    exists h'. split; [exact Hrun|]. split; [|split].
    + intros j. rewrite Hcl. unfold h1. simpl.
      destruct (decide (j = c0)) as [->|Hne].
      * rewrite (bool_decide_eq_false_2 _ Hc0).
        rewrite bool_decide_eq_true_2 by apply list_elem_of_here.
        apply lookup_delete_eq.
      * rewrite lookup_delete_ne by congruence.
        destruct (decide (j ∈ rest)) as [Hj|Hj].
        -- rewrite (bool_decide_eq_true_2 _ Hj).
           rewrite bool_decide_eq_true_2 by (apply list_elem_of_further; exact Hj).
           reflexivity.
        -- rewrite (bool_decide_eq_false_2 _ Hj).
           rewrite bool_decide_eq_false_2; [reflexivity|].
           intros [?|?]%elem_of_cons; contradiction.
    + intros j [->|Hj]%elem_of_cons.
      * exists ch. split; [exact Hs|]. split; [exact Ho|].
        rewrite (Hout c0 Hc0). unfold h1. simpl. apply lookup_insert_eq.
      * destruct (Hin j Hj) as (chj & Hsj & Hoj & Hsj').
        unfold h1 in Hsj. simpl in Hsj.
        rewrite lookup_insert_ne in Hsj by (intros ->; contradiction).
        exists chj. auto.
    + intros j [Hne Hj]%not_elem_of_cons.
      rewrite (Hout j Hj). unfold h1. simpl.
      apply lookup_insert_ne. congruence.
Qed.

(** [unregisterAllClients], when every registered channel is open, empties
    the registry and closes the channel of every client that was
    registered; it touches no other channel. *)
Lemma unregisterAllClients_spec (order : list nat) (h : WebsocketHub) :
  map_Forall (λ k _, spoke_open h k = true) (clients h) →
  range_order (clients h) order →
  ∃ h', unregisterAllClients order h = Some h' ∧
        clients h' = ∅ ∧
        (∀ k, is_Some (clients h !! k) → evicted h h' k) ∧
        (∀ k, clients h !! k = None → spokes h' !! k = spokes h !! k).
Proof.
  intros Hok Hord. unfold unregisterAllClients.
  set (l := filter _ order).
  assert (Hl : ∀ k, k ∈ l ↔ is_Some (clients h !! k)).
  { intros k. unfold l. rewrite list_elem_of_filter.
    rewrite (range_order_elem _ _ k Hord). tauto. }
  destruct (unregisterAllClients_loop_spec l h) as (h' & Hrun & Hcl & Hin & Hout).
  { apply NoDup_filter. apply Hord. }
  { intros k [cl Hk]%Hl. exact (Hok k cl Hk). }
  exists h'. split; [exact Hrun|]. split; [|split].
  - apply map_empty. intros j. rewrite Hcl.
    destruct (decide (j ∈ l)) as [Hj|Hj].
    + rewrite (bool_decide_eq_true_2 _ Hj). reflexivity.
    + rewrite (bool_decide_eq_false_2 _ Hj). rewrite Hl in Hj.
      destruct (clients h !! j); [exfalso; eauto | reflexivity].
  - intros k Hk. split.
    + rewrite Hcl. rewrite bool_decide_eq_true_2 by (apply Hl; exact Hk). reflexivity.
    + apply Hin, Hl, Hk.
  - intros k Hk. apply Hout. rewrite Hl, Hk. intros [? [=]].
Qed.

(** ** Every turn of the loop keeps the hub running or empties it *)

Lemma NewWebsocketHub_ok : hub_ok NewWebsocketHub.
Proof. split; [|reflexivity]. intros k cl Hk. simpl in Hk. rewrite lookup_empty in Hk. discriminate. Qed.

Lemma unregisterClient_ok (h : WebsocketHub) (c : nat) :
  hub_ok h → ∃ h', unregisterClient h c = Some h' ∧ hub_ok h'.
Proof.
  intros Hok. destruct (clients h !! c) as [cl|] eqn:Hc.
  - destruct (hub_ok_lookup h c cl Hok Hc) as (ch & Hs & Ho).
    rewrite (unregisterClient_present h c cl ch Hc Hs Ho).
    eexists. split; [reflexivity|].
    destruct Hok as [Hall Hq]. split; [|exact Hq].
    intros j clj Hj. unfold spoke_open. simpl in *.
    apply lookup_delete_Some in Hj as [Hne Hj].
    rewrite lookup_insert_ne by congruence. exact (Hall j clj Hj).
  - rewrite (unregisterClient_absent h c Hc). eauto.
Qed.

Lemma register_ok (h : WebsocketHub) :
  hub_ok h → hub_ok (registerClient (NewClientHubSpoke h).2 (NewClientHubSpoke h).1).
Proof.
  intros [Hall Hq]. split; [|exact Hq].
  intros j clj Hj. unfold spoke_open. simpl in *.
  destruct (decide (j = fresh (dom (spokes h)))) as [->|Hne].
  - rewrite lookup_insert_eq. reflexivity.
  - rewrite lookup_insert_ne in Hj by congruence.
    rewrite lookup_insert_ne by congruence. exact (Hall j clj Hj).
Qed.

Lemma pump_ok (f : client → option client) (c : nat) (h : WebsocketHub) :
  hub_ok h → (∀ cl, is_Some (f cl)) →
  ∃ h', pump f c h = Some h' ∧ hub_ok h'.
Proof.
  intros Hok Hf. unfold pump. destruct (clients h !! c) as [cl|] eqn:Hc; [|eauto].
  destruct (Hf cl) as [cl' Hcl']. rewrite Hcl'. simpl.
  eexists. split; [reflexivity|].
  apply (hub_ok_same_keys h); [exact Hok | | reflexivity ..].
  intros k. simpl. destruct (decide (k = c)) as [->|Hne].
  - rewrite lookup_insert_eq. eauto.
  - rewrite lookup_insert_ne by congruence. auto.
Qed.

Lemma subscribe_no_panic (cl : client) (msg : HubMessage) :
  no_nil_address msg → is_Some (fst <$> subscribe cl msg).
Proof.
  unfold no_nil_address, subscribe. destruct msg as [sig v]. simpl. intros Hn.
  destruct sig; simpl; eauto.
  destruct v as [|[am|]| | | |]; simpl; eauto.
  exfalso. exact (Hn eq_refl eq_refl).
Qed.

Lemma unsubscribe_no_panic (cl : client) (msg : HubMessage) :
  no_nil_address msg → is_Some (fst <$> unsubscribe cl msg).
Proof.
  unfold no_nil_address, unsubscribe. destruct msg as [sig v]. simpl. intros Hn.
  destruct sig; simpl; eauto.
  destruct v as [|[am|]| | | |]; simpl; eauto.
  exfalso. exact (Hn eq_refl eq_refl).
Qed.

Lemma Run_return_ok (order : list nat) (h : WebsocketHub) :
  map_Forall (λ k _, spoke_open h k = true) (clients h) →
  range_order (clients h) order →
  ∃ h', Run_return order h = Some (Returned h') ∧
        clients h' = ∅ ∧
        (∀ k, is_Some (clients h !! k) → evicted h h' k) ∧
        (∀ k, clients h !! k = None → spokes h' !! k = spokes h !! k).
Proof.
  intros Hall Hord.
  destruct (unregisterAllClients_spec order h Hall Hord) as (h' & Hrun & Hrest).
  exists h'. unfold Run_return. rewrite Hrun. split; [reflexivity | exact Hrest].
Qed.

Lemma Run_step_ok (IsValid : HubMessage → bool) (h : WebsocketHub) (ev : Event) :
  hub_ok h → event_ok h ev →
  ∃ r, Run_step IsValid h ev = Some r ∧ run_ok r.
Proof.
  intros Hok Hev. destruct ev as [[hubMsg|] o1 o2| |c0|[|] o| |c0|c0|c0 m|c0 m|c0];
    simpl in Hev; cbn [Run_step].
  - destruct Hev as [H1 H2].
    destruct (Run_relay_ok IsValid hubMsg o1 o2 h Hok (proj1 H1) (proj1 H2))
      as (h' & Hrun & Hok').
    rewrite Hrun. simpl. eauto.
  - destruct (Run_return_ok o2 h (proj1 Hok) Hev) as (h' & Hrun & Hempty & _).
    rewrite Hrun. eauto.
  - destruct (NewClientHubSpoke h) as [ch h1] eqn:Hnew.
    eexists. split; [reflexivity|]. simpl.
    pose proof (register_ok h Hok) as Hreg. rewrite Hnew in Hreg. exact Hreg.
  - destruct (unregisterClient_ok h c0 Hok) as (h' & Hrun & Hok').
    rewrite Hrun. simpl. eauto.
  - rewrite (proj2 Hok).
    destruct (Run_return_ok o (send_bufferTickerChan (close_quitWSHandler h) tickerSigStop)
                (proj1 Hok) Hev) as (h' & Hrun & Hempty & _).
    rewrite Hrun. eauto.
  - destruct (Run_return_ok o h (proj1 Hok) Hev) as (h' & Hrun & Hempty & _).
    rewrite Hrun. eauto.
  - eexists. split; [reflexivity|]. exact Hok.
  - eexists. split; [reflexivity|]. simpl.
    destruct (spokes h !! c0) as [ch|] eqn:Hs; [|exact Hok].
    destruct Hok as [Hall Hq]. split; [|exact Hq].
    intros j clj Hj. specialize (Hall j clj Hj). unfold spoke_open in *. simpl in *.
    destruct (decide (j = c0)) as [->|Hne].
    + rewrite lookup_insert_eq. simpl. rewrite Hs in Hall. exact Hall.
    + rewrite lookup_insert_ne by congruence. exact Hall.
  - destruct (pump_ok (λ cl, Some (set_newTxs cl (txList.newTxList NewTxBufferSize)))
                c0 h Hok) as (h' & Hrun & Hok'); [eauto|].
    rewrite Hrun. simpl. eauto.
  - destruct (pump_ok (λ cl, fst <$> subscribe cl m) c0 h Hok) as (h' & Hrun & Hok').
    { intros cl. apply subscribe_no_panic. exact Hev. }
    rewrite Hrun. simpl. eauto.
  - destruct (pump_ok (λ cl, fst <$> unsubscribe cl m) c0 h Hok) as (h' & Hrun & Hok').
    { intros cl. apply unsubscribe_no_panic. exact Hev. }
    rewrite Hrun. simpl. eauto.
  - destruct (pump_ok (λ cl, Some (unsubscribeAll cl)) c0 h Hok) as (h' & Hrun & Hok');
      [eauto|].
    rewrite Hrun. simpl. eauto.
Qed.

(** From a running hub, [Run] on acceptable events never panics; it
    either still runs on a running hub or has returned with an empty
    registry. *)
Lemma Run_ok (IsValid : HubMessage → bool) (evs : list Event) :
  ∀ h, hub_ok h → events_ok IsValid h evs →
       ∃ r, Run IsValid h evs = Some r ∧ run_ok r.
Proof.
  induction evs as [|ev rest IH]; intros h Hok Hevs.
  - exists (Running h). split; [reflexivity | exact Hok].
  - destruct Hevs as [Hev Hrest].
    destruct (Run_step_ok IsValid h ev Hok Hev) as (r & Hstep & Hr).
    cbn [Run]. rewrite Hstep. simpl. destruct r as [h'|h'].
    + apply IH; [exact Hr | apply Hrest; exact Hstep].
    + eauto.
Qed.

(** From a new hub, [Run] on acceptable events never panics. *)
Corollary Run_from_NewWebsocketHub (IsValid : HubMessage → bool) (evs : list Event) :
  events_ok IsValid NewWebsocketHub evs →
  ∃ r, Run IsValid NewWebsocketHub evs = Some r ∧ run_ok r.
Proof. apply Run_ok. exact NewWebsocketHub_ok. Qed.

(** An event that the [switch] lets through unchanged goes to the clients
    as it is. *)
Lemma Run_relay_direct (IsValid : HubMessage → bool) (hubMsg : HubMessage)
    (order1 order2 : list nat) (h : WebsocketHub) :
  clients h ≠ ∅ → IsValid hubMsg = true → Signal hubMsg ≠ SigNewTx →
  Run_switch hubMsg order1 h = SwGoOn h false →
  Run_relay IsValid hubMsg order1 order2 h = Run_send hubMsg order2 h.
Proof.
  intros Hne Hvalid Hsig Hsw. unfold Run_relay.
  rewrite bool_decide_eq_false_2 by (rewrite map_size_empty_iff; exact Hne).
  rewrite Hvalid, Hsw. simpl.
  rewrite (bool_decide_eq_false_2 _ Hsig). reflexivity.
Qed.

(** C9: on a running hub, the quit signal and the closing of [HubRelay]
    both make [Run] return, whatever events follow, which it therefore does
    not handle.  The hub it leaves has an empty registry; every channel
    that was registered was open and is now closed, which a second close
    would have turned into a panic; no other channel is touched. *)
Theorem C9_shutdown (IsValid : HubMessage → bool) (h : WebsocketHub)
    (ev : Event) (order : list nat) (rest : list Event) :
  hub_ok h → shutdown_order ev = Some order → range_order (clients h) order →
  ∃ h', Run IsValid h (ev :: rest) = Some (Returned h') ∧
        Run IsValid h [ev] = Some (Returned h') ∧
        clients h' = ∅ ∧
        (∀ k, is_Some (clients h !! k) → evicted h h' k) ∧
        (∀ k, clients h !! k = None → spokes h' !! k = spokes h !! k).
Proof.
  intros Hok Hsd Hord.
  destruct ev as [[hubMsg|] o1 o2| |c0|[|] o| |c0|c0|c0 m|c0 m|c0];
    simpl in Hsd; try discriminate; injection Hsd as ->; cbn [Run Run_step].
  - destruct (Run_return_ok order h (proj1 Hok) Hord) as (h' & Hrun & Hrest).
    exists h'. rewrite Hrun. simpl. auto.
  - rewrite (proj2 Hok).
    destruct (Run_return_ok order
                (send_bufferTickerChan (close_quitWSHandler h) tickerSigStop)
                (proj1 Hok) Hord) as (h' & Hrun & Hrest).
    exists h'. rewrite Hrun. simpl. auto.
  - destruct (Run_return_ok order h (proj1 Hok) Hord) as (h' & Hrun & Hrest).
    exists h'. rewrite Hrun. simpl. auto.
Qed.

Lemma C9_shutdown_witness :
  ∃ h', Run IsValid_model hub3
          [RecvQuit true [0; 1; 2]%nat; RecvHubRelay (Some newblock) [] []]
        = Some (Returned h') ∧
        Run IsValid_model hub3 [RecvQuit true [0; 1; 2]%nat] = Some (Returned h') ∧
        clients h' = ∅ ∧
        (∀ k, is_Some (clients hub3 !! k) → evicted hub3 h' k) ∧
        (∀ k, clients hub3 !! k = None → spokes h' !! k = spokes hub3 !! k).
Proof.
  exact (C9_shutdown IsValid_model hub3 (RecvQuit true [0; 1; 2]%nat) [0; 1; 2]%nat
           [RecvHubRelay (Some newblock) [] []] hub3_ok eq_refl hub3_order).
Defined.

(** ** The buffer is not bounded *)

Lemma six_transactions_ok : events_ok IsValid_model NewWebsocketHub six_transactions.
Proof.
  unfold six_transactions.
  repeat (split;
          [ try exact I;
            split; (split; refine (bool_decide_unpack _ _); vm_compute; exact I)
          | intros ? Hstep; vm_compute in Hstep; injection Hstep as <- ]).
  exact I.
Qed.

(** C3 as stated fails: one client connects and never subscribes, six
    transactions arrive, and its buffer then holds six of them, one more
    than [NewTxBufferSize]. *)
Lemma C3_counterexample :
  events_ok IsValid_model NewWebsocketHub six_transactions ∧
  ∃ h cl, Run IsValid_model NewWebsocketHub six_transactions = Some (Running h) ∧
          clients h !! 0%nat = Some cl ∧
          newTxs cl = [Some {| Hash := "t1" |}; Some {| Hash := "t2" |};
                       Some {| Hash := "t3" |}; Some {| Hash := "t4" |};
                       Some {| Hash := "t5" |}; Some {| Hash := "t6" |}] ∧
          (NewTxBufferSize < length (newTxs cl))%nat.
Proof.
  split; [exact six_transactions_ok|].
  eexists _, _. split; [vm_compute; reflexivity|].
  split; [vm_compute; reflexivity|].
  split; [reflexivity|]. vm_compute. lia.
Qed.

(** C3 (amended): the buffer keeps the order of arrival but is not bounded
    by [NewTxBufferSize].  An append puts the transaction at the end of a
    buffer of any length and reports ready when the new length is five or
    more; and a valid single-new-transaction event handled by a running hub
    with clients leaves every client that is still registered with the
    transaction at the end of what its buffer held, its subscriptions
    unchanged. *)
Theorem C3_buffer_grows_in_order (IsValid : HubMessage → bool) (tx : MempoolTx)
    (order1 order2 : list nat) (h : WebsocketHub) :
  let hubMsg := {| Signal := SigNewTx; Msg := MsgMempoolTxPtr (Some tx) |} in
  hub_ok h → range_order (clients h) order1 → range_order (clients h) order2 →
  clients h ≠ ∅ → IsValid hubMsg = true →
  (∀ tl t, txList.addTxToBuffer tl t
           = (tl ++ [t], bool_decide (5 ≤ length (tl ++ [t]))%nat)) ∧
  ∃ h', Run_relay IsValid hubMsg order1 order2 h = Some h' ∧
        ∀ k cl', clients h' !! k = Some cl' →
                 ∃ cl, clients h !! k = Some cl ∧
                       newTxs cl' = newTxs cl ++ [Some tx] ∧
                       subs cl' = subs cl ∧ addrs cl' = addrs cl.
Proof.
  intros hubMsg Hok Hord1 Hord2 Hne Hvalid. split; [reflexivity|].
  destruct (Run_relay_newtx_appends IsValid tx order1 order2 h Hok Hord1
              (proj1 Hord2) Hne Hvalid) as (h' & Hrun & Hcl).
  exists h'. split; [exact Hrun|].
  intros k cl' Hk. destruct (Hcl k cl' Hk) as (cl & Hc & ->).
  exists cl. repeat split. exact Hc.
Qed.

Lemma hub_five_ok : hub_ok hub_five.
Proof. split; [|reflexivity]. refine (bool_decide_unpack _ _). vm_compute. exact I. Qed.

Lemma hub_five_order : range_order (clients hub_five) [0%nat].
Proof. split; refine (bool_decide_unpack _ _); vm_compute; exact I. Qed.

Lemma hub_five_clients : clients hub_five ≠ ∅.
Proof.
  intros H. apply (f_equal (λ m, is_Some (m !! 0%nat))) in H.
  assert (Hs : is_Some (clients hub_five !! 0%nat)) by (vm_compute; eauto).
  rewrite H in Hs. destruct Hs as [? Hs]. rewrite lookup_empty in Hs. discriminate.
Qed.

Lemma C3_buffer_grows_in_order_witness :
  (∀ tl t, txList.addTxToBuffer tl t
           = (tl ++ [t], bool_decide (5 ≤ length (tl ++ [t]))%nat)) ∧
  ∃ h', Run_relay IsValid_model (newtx "t6") [0%nat] [0%nat] hub_five = Some h' ∧
        ∀ k cl', clients h' !! k = Some cl' →
                 ∃ cl, clients hub_five !! k = Some cl ∧
                       newTxs cl' = newTxs cl ++ [Some {| Hash := "t6" |}] ∧
                       subs cl' = subs cl ∧ addrs cl' = addrs cl.
Proof.
  exact (C3_buffer_grows_in_order IsValid_model {| Hash := "t6" |} [0%nat] [0%nat]
           hub_five hub_five_ok hub_five_order hub_five_order hub_five_clients eq_refl).
Defined.

(** ** Which client decides that the buffers are sent *)

(** A valid single-new-transaction event on a running hub with clients:
    whether the hub goes on to signal its clients depends on the flag of
    the ticker and on the buffer of the one client that the walk of
    [addTxToBuffer] visits last. *)
Lemma Run_relay_newtx_decision (IsValid : HubMessage → bool) (tx : MempoolTx)
    (before : list nat) (k : nat) (cl : client) (order2 : list nat) (h : WebsocketHub) :
  let hubMsg := {| Signal := SigNewTx; Msg := MsgMempoolTxPtr (Some tx) |} in
  let h1 := (MaybeSendTxns (Some tx) (before ++ [k]) h).1 in
  NoDup (before ++ [k]) → clients h !! k = Some cl → IsValid hubMsg = true →
  Run_relay IsValid hubMsg (before ++ [k]) order2 h
  = if ready_after cl || timeToSendTxBuffer h
    then Run_send newtxs_ready order2 h1
    else Some h1.
Proof.
  intros hubMsg h1 Hnd Hk Hvalid. unfold Run_relay.
  rewrite bool_decide_eq_false_2.
  2:{ rewrite map_size_empty_iff. intros Hempty. rewrite Hempty, lookup_empty in Hk.
      discriminate. }
  rewrite Hvalid. subst hubMsg. unfold Run_switch. simpl.
  destruct (MaybeSendTxns_spec (Some tx) (before ++ [k]) h Hnd) as (_ & _ & _ & Ht & Hr).
  unfold addTxToBuffer in Hr.
  rewrite (addTxToBuffer_range_flag (Some tx) k cl before h false Hnd Hk) in Hr.
  subst h1. destruct (MaybeSendTxns (Some tx) (before ++ [k]) h) as [h1 r].
  simpl in *. subst r. unfold TimeToSendTxBuffer. rewrite Ht.
  destruct (ready_after cl || timeToSendTxBuffer h); reflexivity.
Qed.

Lemma two_clients_setup_ok : events_ok IsValid_model NewWebsocketHub two_clients_setup.
Proof.
  unfold two_clients_setup.
  repeat (split;
          [ try exact I; try (intros H; discriminate H);
            split; (split; refine (bool_decide_unpack _ _); vm_compute; exact I)
          | intros ? Hstep; vm_compute in Hstep; injection Hstep as <- ]).
  exact I.
Qed.

(** C1 (the code departs from the claim): [Run] reaches [hub_two], where
    the buffer of client 0 holds four transactions, that of client 1 none,
    and the ticker has not fired.  A fifth transaction arrives.  If the
    walk of [addTxToBuffer] visits client 0 and then client 1, the buffer
    of client 0 reaches [NewTxBufferSize] and yet no client is signalled:
    every channel is as it was.  If the walk visits client 1 and then
    client 0, client 0 is sent the batched event. *)
Theorem C1_last_visited_client_decides :
  events_ok IsValid_model NewWebsocketHub two_clients_setup ∧
  Run IsValid_model NewWebsocketHub two_clients_setup = Some (Running hub_two) ∧
  range_order (clients hub_two) [0; 1]%nat ∧
  range_order (clients hub_two) [1; 0]%nat ∧
  timeToSendTxBuffer hub_two = false ∧
  (∃ h1 cl0, Run_relay IsValid_model (newtx "t5") [0; 1]%nat [0; 1]%nat hub_two
             = Some h1 ∧
             clients h1 !! 0%nat = Some cl0 ∧
             length (newTxs cl0) = NewTxBufferSize ∧
             isSubscribed cl0 newtxs_ready = Some true ∧
             spokes h1 = spokes hub_two) ∧
  (∃ h2 ch0, Run_relay IsValid_model (newtx "t5") [1; 0]%nat [0; 1]%nat hub_two
             = Some h2 ∧
             spokes h2 !! 0%nat = Some ch0 ∧
             queue ch0 = [newtxs_ready]).
Proof.
  split; [exact two_clients_setup_ok|].
  split; [vm_compute; reflexivity|].
  split; [split; refine (bool_decide_unpack _ _); vm_compute; exact I|].
  split; [split; refine (bool_decide_unpack _ _); vm_compute; exact I|].
  split; [reflexivity|]. split.
  - eexists _, _. split; [vm_compute; reflexivity|].
    split; [vm_compute; reflexivity|].
    split; [reflexivity|]. split; vm_compute; reflexivity.
  - eexists _, _. split; [vm_compute; reflexivity|].
    split; [vm_compute; reflexivity|]. reflexivity.
Qed.

(** ** Requests over the size limit *)

Lemma length_bytes (n : nat) : String.length (bytes n) = n.
Proof. induction n as [|n IH]; simpl; congruence. Qed.

Lemma len_oversized_request :
  len (Message oversized_request) = (MaxPayloadBytes + 1)%Z.
Proof.
  unfold len, oversized_request, Message. rewrite length_bytes.
  apply Z2Nat.id. unfold MaxPayloadBytes. rewrite Z.shiftl_1_l. lia.
Qed.

(** A request longer than the limit: the turn ends at [continue], before
    anything is written to the connection. *)
Lemma receiveLoop_turn_over_limit
    (ValidateSubscription : string → HubSignal * MsgValue * bool)
    (DecodeRawTransaction : string → option string + string)
    (SendRawTransaction : string → string + string)
    (limit : Z) (cl : client) (msg : WebSocketMessage)
    (mempoolJSON : option string) (send_ok : bool) :
  (limit < len (Message msg))%Z →
  receiveLoop_turn ValidateSubscription DecodeRawTransaction SendRawTransaction
    limit cl (RecvMessage msg) mempoolJSON send_ok
  = Some {| turn_client := cl; turn_sent := []; turn_ctl := LoopContinue |}.
Proof.
  intros Hlim. unfold receiveLoop_turn.
  rewrite (bool_decide_eq_true_2 _ Hlim). reflexivity.
Qed.

(** C2 (the code departs from the claim): a request one byte over the
    limit of a new hub is not processed and the loop goes on, so the
    connection stays open, but no response is written: the turn sets the
    text of the rejection and then leaves by [continue]. *)
Theorem C2_oversized_request_gets_no_response
    (ValidateSubscription : string → HubSignal * MsgValue * bool)
    (DecodeRawTransaction : string → option string + string)
    (SendRawTransaction : string → string + string)
    (mempoolJSON : option string) (send_ok : bool) :
  requestLimit NewWebsocketHub = 1048576%Z ∧
  len (Message oversized_request) = 1048577%Z ∧
  receiveLoop_turn ValidateSubscription DecodeRawTransaction SendRawTransaction
    (requestLimit NewWebsocketHub) newClient (RecvMessage oversized_request)
    mempoolJSON send_ok
  = Some {| turn_client := newClient; turn_sent := []; turn_ctl := LoopContinue |}.
Proof.
  split; [reflexivity|]. split; [exact len_oversized_request|].
  apply receiveLoop_turn_over_limit. rewrite len_oversized_request.
  change (requestLimit NewWebsocketHub) with MaxPayloadBytes. lia.
Qed.

(** * Further properties of the code *)

(** ** Subscribing and unsubscribing *)

Lemma isSubscribed_other_kind (c c' : client) (s : HubSignal) (msg' : HubMessage) :
  Signal msg' ≠ s →
  (Signal msg' ∈ subs c' ↔ Signal msg' ∈ subs c) →
  (s ≠ SigAddressTx → addrs c' = addrs c) →
  isSubscribed c' msg' = isSubscribed c msg'.
Proof.
  intros Hne Hsubs Haddrs. unfold isSubscribed, isSubscribed_log.
  rewrite (bool_decide_ext _ _ Hsubs).
  destruct (bool_decide (Signal msg' ∈ subs c)); simpl; [|reflexivity].
  destruct (Signal msg') eqn:Hsig; try reflexivity.
  rewrite Haddrs by congruence. reflexivity.
Qed.

(** X1: a well-formed subscription request succeeds, and from then on
    [isSubscribed] accepts the very message that was subscribed to; the
    transaction buffer is not touched. *)
Theorem subscribe_then_isSubscribed (c : client) (msg : HubMessage) :
  wellformed_request msg = true →
  ∃ c', subscribe c msg = Some (c', None) ∧
        isSubscribed c' msg = Some true ∧
        newTxs c' = newTxs c.
Proof.
  unfold wellformed_request, subscribe.
  destruct msg as [sig v]; simpl.
  destruct sig; try destruct v as [|[am|]| | | |]; try discriminate; intros _;
    simpl; eexists; (split; [reflexivity|]); (split; [|reflexivity]);
    try rewrite isSubscribed_address;
    unfold isSubscribed, isSubscribed_log; simpl;
    try (rewrite bool_decide_eq_true_2 by set_solver; reflexivity).
Qed.

Lemma subscribe_then_isSubscribed_witness :
  ∃ c', subscribe newClient (addr_msg "B") = Some (c', None) ∧
        isSubscribed c' (addr_msg "B") = Some true ∧
        newTxs c' = newTxs newClient.
Proof. exact (subscribe_then_isSubscribed newClient (addr_msg "B") eq_refl). Defined.

(** X2: a well-formed unsubscription request succeeds, and afterwards
    [isSubscribed] rejects the message that was unsubscribed from,
    whatever the client was subscribed to before. *)
Theorem unsubscribe_then_not_subscribed (c : client) (msg : HubMessage) :
  wellformed_request msg = true →
  ∃ c', unsubscribe c msg = Some (c', None) ∧
        isSubscribed c' msg = Some false ∧
        newTxs c' = newTxs c.
Proof.
  unfold wellformed_request, unsubscribe.
  destruct msg as [sig v]; simpl.
  destruct sig; try destruct v as [|[am|]| | | |]; try discriminate; intros _;
    simpl; eexists; (split; [reflexivity|]); (split; [|reflexivity]);
    try rewrite isSubscribed_address;
    unfold isSubscribed, isSubscribed_log; simpl;
    try (rewrite bool_decide_eq_false_2 by set_solver; reflexivity).
Qed.

Lemma unsubscribe_then_not_subscribed_witness :
  ∃ c', unsubscribe client_AB (addr_msg "A") = Some (c', None) ∧
        isSubscribed c' (addr_msg "A") = Some false ∧
        newTxs c' = newTxs client_AB.
Proof. exact (unsubscribe_then_not_subscribed client_AB (addr_msg "A") eq_refl). Defined.

(** X3: subscribing never takes a subscription away.  Whatever the
    request, and whether or not it is accepted, every message the client
    accepted before it still accepts afterwards. *)
Theorem subscribe_keeps_subscriptions (c c' : client) (msg msg' : HubMessage) (e : error) :
  subscribe c msg = Some (c', e) →
  isSubscribed c msg' = Some true →
  isSubscribed c' msg' = Some true.
Proof.
  unfold subscribe. intros Hsub Hbefore.
  assert (Hgrow : subs c ⊆ subs c' ∧ addrs c ⊆ addrs c').
  { destruct (Signal msg); try destruct (Msg msg) as [|[am|]| | | |];
      simpl in Hsub; try discriminate; injection Hsub as <- _; simpl; set_solver. }
  destruct Hgrow as [Hs Ha].
  unfold isSubscribed, isSubscribed_log in *.
  destruct (decide (Signal msg' ∈ subs c)) as [Hin|Hout].
  2:{ rewrite (bool_decide_eq_false_2 _ Hout) in Hbefore. discriminate. }
  rewrite (bool_decide_eq_true_2 _ Hin) in Hbefore.
  rewrite bool_decide_eq_true_2 by set_solver. simpl in *.
  destruct (Signal msg'); try exact Hbefore.
  destruct (Msg msg') as [|[am|]| | | |]; try exact Hbefore. simpl in *.
  injection Hbefore as Hb. apply bool_decide_eq_true_1 in Hb.
  f_equal. apply bool_decide_eq_true_2. set_solver.
Qed.

Lemma subscribe_keeps_subscriptions_witness :
  ∃ c', subscribe client_B (addr_msg "A") = Some (c', None) ∧
        isSubscribed c' (addr_msg "B") = Some true.
Proof.
  eexists. split; [reflexivity|].
  eapply (subscribe_keeps_subscriptions client_B _ (addr_msg "A") (addr_msg "B"));
    reflexivity.
Defined.

(** X4: an address-activity request whose payload is anything but a
    [*AddressMessage] is refused by [subscribe] and by [unsubscribe] alike:
    each returns its own error, naming the dynamic type of the payload, and
    leaves the client exactly as it was. *)
Theorem malformed_address_request_refused (c : client) (v : MsgValue) :
  (∀ p, v ≠ MsgAddressPtr p) →
  subscribe c {| Signal := SigAddressTx; Msg := v |}
  = Some (c, Some ("msg.Msg not a string (SigAddressTx): " +:+ typeName v)) ∧
  unsubscribe c {| Signal := SigAddressTx; Msg := v |}
  = Some (c, Some ("msg.Msg not an AddressMessage (SigAddressTx): " +:+ typeName v)).
Proof.
  intros Hv. unfold subscribe, unsubscribe. simpl.
  destruct v; try (split; reflexivity).
  exfalso. eapply Hv. reflexivity.
Qed.

Lemma malformed_address_request_refused_witness :
  subscribe client_B {| Signal := SigAddressTx; Msg := MsgString "B" |}
  = Some (client_B, Some "msg.Msg not a string (SigAddressTx): string") ∧
  unsubscribe client_B {| Signal := SigAddressTx; Msg := MsgString "B" |}
  = Some (client_B, Some "msg.Msg not an AddressMessage (SigAddressTx): string").
Proof.
  apply (malformed_address_request_refused client_B (MsgString "B")).
  intros p H. discriminate H.
Defined.

(** X5: after [unsubscribeAll] the client accepts no message at all, and
    [isSubscribed] cannot panic on it, not even on a nil
    [*AddressMessage]; the transaction buffer is kept. *)
Theorem unsubscribeAll_accepts_nothing (c : client) (msg : HubMessage) :
  isSubscribed (unsubscribeAll c) msg = Some false ∧
  subs (unsubscribeAll c) = ∅ ∧ addrs (unsubscribeAll c) = ∅ ∧
  newTxs (unsubscribeAll c) = newTxs c.
Proof.
  split; [|repeat split].
  unfold isSubscribed, isSubscribed_log. simpl.
  rewrite bool_decide_eq_false_2 by set_solver. reflexivity.
Qed.

(** X6: a request about one kind never changes what the client accepts of
    another kind: after [subscribe] or [unsubscribe] with a message of one
    signal, [isSubscribed] answers as before on every message of a
    different signal. *)
Theorem requests_leave_other_kinds_alone
    (c c1 c2 : client) (msg msg' : HubMessage) (e1 e2 : error) :
  Signal msg' ≠ Signal msg →
  subscribe c msg = Some (c1, e1) →
  unsubscribe c msg = Some (c2, e2) →
  isSubscribed c1 msg' = isSubscribed c msg' ∧
  isSubscribed c2 msg' = isSubscribed c msg'.
Proof.
  intros Hne Hsub Hunsub. unfold subscribe in Hsub. unfold unsubscribe in Hunsub.
  split; apply (isSubscribed_other_kind _ _ (Signal msg)); try exact Hne.
  - destruct (Signal msg); try destruct (Msg msg) as [|[am|]| | | |];
      simpl in Hsub; try discriminate; injection Hsub as <- _; simpl; set_solver.
  - intros Hs. destruct (Signal msg); try congruence;
      simpl in Hsub; injection Hsub as <- _; reflexivity.
  - destruct (Signal msg); try destruct (Msg msg) as [|[am|]| | | |];
      simpl in Hunsub; try discriminate; injection Hunsub as <- _; simpl; set_solver.
  - intros Hs. destruct (Signal msg); try congruence;
      simpl in Hunsub; injection Hunsub as <- _; reflexivity.
Qed.

Lemma requests_leave_other_kinds_alone_witness :
  ∃ c1 c2,
    subscribe client_B newblock = Some (c1, None) ∧
    unsubscribe client_B newblock = Some (c2, None) ∧
    isSubscribed c1 (addr_msg "B") = isSubscribed client_B (addr_msg "B") ∧
    isSubscribed c2 (addr_msg "B") = isSubscribed client_B (addr_msg "B").
Proof.
  eexists _, _. split; [reflexivity|]. split; [reflexivity|].
  apply (requests_leave_other_kinds_alone client_B _ _ newblock (addr_msg "B") None None);
    [discriminate | reflexivity | reflexivity].
Defined.

(** ** The registry and its gauge *)

(** X7: a registration adds one client under a key that was neither
    registered nor in use for a channel (on a running hub); the new client
    is a fresh one with an open, empty channel of capacity sixteen, every
    other entry of the registry and of the channel store is as before, and
    the gauge counts one client more than were registered. *)
Theorem register_adds_fresh_client (IsValid : HubMessage → bool) (h : WebsocketHub) :
  hub_ok h →
  ∃ k h', Run_step IsValid h RecvRegister = Some (Running h') ∧
          clients h !! k = None ∧ spokes h !! k = None ∧
          clients h' = <[k := newClient]> (clients h) ∧
          spokes h' = <[k := make_hubSpoke 16]> (spokes h) ∧
          NumClients h' = S (size (clients h)) ∧
          ∀ j, j ≠ k → untouched h h' j.
Proof.
  intros Hok. exists (fresh (dom (spokes h))). eexists.
  split; [reflexivity|].
  assert (Hfresh : spokes h !! fresh (dom (spokes h)) = None).
  { apply not_elem_of_dom. apply is_fresh. }
  assert (Hnew : clients h !! fresh (dom (spokes h)) = None).
  { destruct (clients h !! fresh (dom (spokes h))) as [cl|] eqn:Hc; [|reflexivity].
    destruct (hub_ok_lookup h _ cl Hok Hc) as (ch & Hs & _). congruence. }
  split; [exact Hnew|]. split; [exact Hfresh|].
  split; [reflexivity|]. split; [reflexivity|]. split.
  - unfold NumClients. simpl. apply map_size_insert_None. exact Hnew.
  - intros j Hne. split; simpl; apply lookup_insert_ne; congruence.
Qed.

Lemma register_adds_fresh_client_witness :
  ∃ k h', Run_step IsValid_model hub3 RecvRegister = Some (Running h') ∧
          clients hub3 !! k = None ∧ spokes hub3 !! k = None ∧
          clients h' = <[k := newClient]> (clients hub3) ∧
          spokes h' = <[k := make_hubSpoke 16]> (spokes hub3) ∧
          NumClients h' = S (size (clients hub3)) ∧
          ∀ j, j ≠ k → untouched hub3 h' j.
Proof. exact (register_adds_fresh_client IsValid_model hub3 hub3_ok). Defined.

Lemma unregisterClient_gauge (h h' : WebsocketHub) (c : nat) :
  unregisterClient h c = Some h' → gauge_ok h → gauge_ok h'.
Proof.
  unfold unregisterClient, gauge_ok, NumClients.
  destruct (clients h !! c); [|intros [= <-]; auto].
  simpl. destruct (spokes h !! c) as [ch|]; [|discriminate]. simpl.
  destruct (close_chan ch); [|discriminate]. simpl.
  intros [= <-] _. reflexivity.
Qed.

Lemma signal_or_unregister_gauge (hubMsg : HubMessage) (h h' : WebsocketHub)
    (k : nat) (cl : client) :
  signal_or_unregister hubMsg h k cl = Some h' → gauge_ok h → gauge_ok h'.
Proof.
  unfold signal_or_unregister.
  destruct (isSubscribed cl hubMsg) as [[|]|]; simpl; [| intros [= <-]; auto | discriminate].
  destruct (spokes h !! k) as [ch|]; [|discriminate]. simpl.
  destruct (trySend ch hubMsg) as [[ch'|]|]; simpl; [| |discriminate].
  - intros [= <-] Hg. exact Hg.
  - apply unregisterClient_gauge.
Qed.

Lemma fanout_gauge (hubMsg : HubMessage) (order : list nat) :
  ∀ h h', fanout hubMsg order h = Some h' → gauge_ok h → gauge_ok h'.
Proof.
  unfold fanout. induction order as [|k rest IH]; intros h h'; simpl.
  - intros [= <-]. auto.
  - destruct (clients h !! k) as [cl|]; [|apply IH].
    destruct (signal_or_unregister hubMsg h k cl) as [h1|] eqn:Hbody; [|discriminate].
    simpl. intros Hrun Hg. apply (IH h1 h' Hrun).
    exact (signal_or_unregister_gauge hubMsg h h1 k cl Hbody Hg).
Qed.

Lemma addTxToBuffer_range_gauge (tx : ptr MempoolTx) (order : list nat) :
  ∀ h r, gauge_ok h → gauge_ok (addTxToBuffer_range tx order h r).1.
Proof.
  induction order as [|k rest IH]; intros h r Hg; [exact Hg|].
  destruct (clients h !! k) as [cl|] eqn:Hc.
  - rewrite (addTxToBuffer_range_cons_Some tx k rest h r cl Hc). apply IH.
    unfold gauge_ok, NumClients in *. simpl.
    rewrite map_size_insert_Some by eauto. exact Hg.
  - rewrite (addTxToBuffer_range_cons_None tx k rest h r Hc). apply IH. exact Hg.
Qed.

Lemma MaybeSendTxns_gauge (tx : ptr MempoolTx) (order : list nat) (h : WebsocketHub) :
  gauge_ok h → gauge_ok (MaybeSendTxns tx order h).1.
Proof.
  intros Hg. unfold MaybeSendTxns, addTxToBuffer.
  pose proof (addTxToBuffer_range_gauge tx order h false Hg) as Hg1.
  destruct (addTxToBuffer_range tx order h false) as [h1 r]. simpl in Hg1.
  destruct r; exact Hg1.
Qed.

Lemma Run_send_gauge (hubMsg : HubMessage) (order2 : list nat) (h h' : WebsocketHub) :
  Run_send hubMsg order2 h = Some h' → gauge_ok h → gauge_ok h'.
Proof.
  unfold Run_send. destruct (fanout hubMsg order2 h) as [h2|] eqn:Hrun; [|discriminate].
  simpl. intros Hres Hg.
  pose proof (fanout_gauge hubMsg order2 h h2 Hrun Hg) as Hg2.
  destruct (bool_decide _); injection Hres as <-; exact Hg2.
Qed.

Lemma Run_relay_gauge (IsValid : HubMessage → bool) (hubMsg : HubMessage)
    (order1 order2 : list nat) (h h' : WebsocketHub) :
  Run_relay IsValid hubMsg order1 order2 h = Some h' → gauge_ok h → gauge_ok h'.
Proof.
  unfold Run_relay.
  destruct (bool_decide (size (clients h) = 0%nat)); [intros [= <-]; auto|].
  destruct (IsValid hubMsg); simpl; [|intros [= <-]; auto].
  destruct (Run_switch_cases hubMsg order1 h)
    as [Hsw | [(Hsig & Hn & Hsw) | (tx & -> & Hsw)]]; rewrite Hsw.
  - intros [= <-]. auto.
  - rewrite (bool_decide_eq_false_2 _ Hsig). apply Run_send_gauge.
  - rewrite bool_decide_eq_true_2 by reflexivity.
    intros Hres Hg.
    pose proof (MaybeSendTxns_gauge (Some tx) order1 h Hg) as Hg1.
    destruct (negb _); [injection Hres as <-; exact Hg1|].
    exact (Run_send_gauge _ _ _ _ Hres Hg1).
Qed.

Lemma pump_gauge (f : client → option client) (c : nat) (h h' : WebsocketHub) :
  pump f c h = Some h' → gauge_ok h → gauge_ok h'.
Proof.
  unfold pump. destruct (clients h !! c) as [cl|] eqn:Hc; [|intros [= <-]; auto].
  destruct (f cl) as [cl'|]; [|discriminate]. simpl.
  intros [= <-] Hg. unfold gauge_ok, NumClients in *. simpl.
  rewrite map_size_insert_Some by eauto. exact Hg.
Qed.

Lemma Run_step_gauge (IsValid : HubMessage → bool) (h h' : WebsocketHub) (ev : Event) :
  Run_step IsValid h ev = Some (Running h') → gauge_ok h → gauge_ok h'.
Proof.
  destruct ev as [[hubMsg|] o1 o2| |c0|[|] o| |c0|c0|c0 m|c0 m|c0]; cbn [Run_step].
  - destruct (Run_relay IsValid hubMsg o1 o2 h) as [h1|] eqn:Hrun; [|discriminate].
    simpl. intros [= <-]. exact (Run_relay_gauge IsValid hubMsg o1 o2 h h1 Hrun).
  - unfold Run_return. destruct (unregisterAllClients o2 h); discriminate.
  - intros [= <-] _. reflexivity.
  - destruct (unregisterClient h c0) as [h1|] eqn:Hrun; [|discriminate].
    simpl. intros [= <-]. exact (unregisterClient_gauge h h1 c0 Hrun).
  - destruct (quitClosed h); [discriminate|].
    unfold Run_return. destruct (unregisterAllClients o _); discriminate.
  - unfold Run_return. destruct (unregisterAllClients o h); discriminate.
  - intros [= <-] Hg. exact Hg.
  - intros [= <-] Hg. destruct (spokes h !! c0); exact Hg.
  - destruct (pump _ c0 h) as [h1|] eqn:Hrun; [|discriminate].
    simpl. intros [= <-]. exact (pump_gauge _ c0 h h1 Hrun).
  - destruct (pump _ c0 h) as [h1|] eqn:Hrun; [|discriminate].
    simpl. intros [= <-]. exact (pump_gauge _ c0 h h1 Hrun).
  - destruct (pump _ c0 h) as [h1|] eqn:Hrun; [|discriminate].
    simpl. intros [= <-]. exact (pump_gauge _ c0 h h1 Hrun).
  - destruct (pump _ c0 h) as [h1|] eqn:Hrun; [|discriminate].
    simpl. intros [= <-]. exact (pump_gauge _ c0 h h1 Hrun).
Qed.

Lemma Run_gauge (IsValid : HubMessage → bool) (evs : list Event) :
  ∀ h h', Run IsValid h evs = Some (Running h') → gauge_ok h → gauge_ok h'.
Proof.
  induction evs as [|ev rest IH]; intros h h'; cbn [Run].
  - intros [= <-]. auto.
  - destruct (Run_step IsValid h ev) as [[h1|h1]|] eqn:Hstep; simpl; try discriminate.
    intros Hrun Hg. apply (IH h1 h' Hrun).
    exact (Run_step_gauge IsValid h h1 ev Hstep Hg).
Qed.

(** X8: as long as [Run] is running, [NumClients] is the number of
    registered clients: whatever events a new hub has handled, in whatever
    order its maps were walked, the gauge equals the size of the registry. *)
Theorem NumClients_counts_registry (IsValid : HubMessage → bool)
    (evs : list Event) (h : WebsocketHub) :
  Run IsValid NewWebsocketHub evs = Some (Running h) →
  NumClients h = size (clients h).
Proof.
  intros Hrun. apply (Run_gauge IsValid evs NewWebsocketHub h Hrun). reflexivity.
Qed.

Lemma NumClients_counts_registry_witness :
  NumClients hub_two = size (clients hub_two).
Proof.
  apply (NumClients_counts_registry IsValid_model two_clients_setup hub_two).
  vm_compute. reflexivity.
Defined.

Lemma unregisterAllClients_loop_gauge (l : list nat) :
  ∀ h h', unregisterAllClients_loop l h = Some h' → NumClients h' = NumClients h.
Proof.
  induction l as [|c0 rest IH]; intros h h'; cbn [unregisterAllClients_loop].
  - intros [= <-]. reflexivity.
  - simpl. destruct (spokes h !! c0) as [ch|]; [|discriminate]. simpl.
    destruct (close_chan ch) as [ch'|]; [|discriminate]. simpl.
    intros Hrun. rewrite (IH _ _ Hrun). reflexivity.
Qed.

(** X9: the shutdown does not bring the gauge down.  When [Run] returns
    from a running hub the registry is empty, but [NumClients] still
    reports what it reported before: [unregisterAllClients] deletes the
    entries without calling [setNumClients]. *)
Theorem shutdown_leaves_gauge (IsValid : HubMessage → bool) (h : WebsocketHub)
    (ev : Event) (order : list nat) :
  hub_ok h → shutdown_order ev = Some order → range_order (clients h) order →
  ∃ h', Run_step IsValid h ev = Some (Returned h') ∧
        clients h' = ∅ ∧
        NumClients h' = NumClients h.
Proof.
  intros Hok Hsd Hord.
  assert (Hret : ∀ h0, clients h0 = clients h → spokes h0 = spokes h →
                       NumClients h0 = NumClients h →
                       ∃ h', Run_return order h0 = Some (Returned h') ∧
                             clients h' = ∅ ∧ NumClients h' = NumClients h).
  { intros h0 Hc Hs Hn.
    destruct (Run_return_ok order h0) as (h' & Hrun & Hempty & _).
    - intros k cl Hk. unfold spoke_open. rewrite Hs. rewrite Hc in Hk.
      exact (proj1 Hok k cl Hk).
    - rewrite Hc. exact Hord.
    - exists h'. split; [exact Hrun|]. split; [exact Hempty|].
      unfold Run_return, unregisterAllClients in Hrun.
      destruct (unregisterAllClients_loop _ h0) as [h1|] eqn:Hloop; [|discriminate].
      simpl in Hrun. injection Hrun as <-.
      rewrite (unregisterAllClients_loop_gauge _ _ _ Hloop). exact Hn. }
  destruct ev as [[hubMsg|] o1 o2| |c0|[|] o| |c0|c0|c0 m|c0 m|c0];
    simpl in Hsd; try discriminate; injection Hsd as ->; cbn [Run_step].
  - apply Hret; reflexivity.
  - rewrite (proj2 Hok). apply Hret; reflexivity.
  - apply Hret; reflexivity.
Qed.

Lemma shutdown_leaves_gauge_witness :
  ∃ h', Run_step IsValid_model hub3 (RecvQuit true [0; 1; 2]%nat) = Some (Returned h') ∧
        clients h' = ∅ ∧
        NumClients h' = 3%nat.
Proof.
  exact (shutdown_leaves_gauge IsValid_model hub3 (RecvQuit true [0; 1; 2]%nat)
           [0; 1; 2]%nat hub3_ok eq_refl hub3_order).
Defined.

(** ** What the hub does not relay *)

(** X10: the events [Run] drops.  With an empty registry, on a message
    that is not valid, on the subscribe and unsubscribe signals, on a
    batched new-transactions event or an unknown signal coming in on
    [HubRelay], and on an address or transaction event whose payload is nil,
    the turn ends with the hub exactly as it was: nothing is sent, no buffer
    grows, no client is dropped. *)
Theorem Run_relay_drops (IsValid : HubMessage → bool) (hubMsg : HubMessage)
    (order1 order2 : list nat) (h : WebsocketHub) :
  clients h = ∅ ∨ IsValid hubMsg = false ∨
  Signal hubMsg = SigSubscribe ∨ Signal hubMsg = SigUnsubscribe ∨
  Signal hubMsg = SigNewTxs ∨ (∃ n, Signal hubMsg = SigOther n) ∨
  ((Signal hubMsg = SigAddressTx ∨ Signal hubMsg = SigNewTx) ∧
   (Msg hubMsg = MsgNil ∨ Msg hubMsg = MsgAddressPtr None ∨
    Msg hubMsg = MsgMempoolTxPtr None)) →
  Run_relay IsValid hubMsg order1 order2 h = Some h.
Proof.
  intros Hcase. unfold Run_relay.
  destruct (decide (clients h = ∅)) as [Hempty|Hne].
  { rewrite bool_decide_eq_true_2; [reflexivity|]. rewrite Hempty. apply map_size_empty. }
  rewrite bool_decide_eq_false_2 by (rewrite map_size_empty_iff; exact Hne).
  destruct (IsValid hubMsg); [|reflexivity]. simpl.
  destruct hubMsg as [sig v]. unfold Run_switch. simpl in *.
  destruct Hcase as [?|[?|[->|[->|[->|[[n ->]|[[->| ->] [->|[->| ->]]]]]]]]];
    try contradiction; try discriminate; reflexivity.
Qed.

Lemma Run_relay_drops_witness :
  Run_relay IsValid_model {| Signal := SigNewTxs; Msg := MsgTxSlice [] |}
    [0; 1; 2]%nat [0; 1; 2]%nat hub3 = Some hub3.
Proof.
  apply (Run_relay_drops IsValid_model). right; right; right; right; left. reflexivity.
Defined.

Lemma fanout_no_subscriber (hubMsg : HubMessage) (order : list nat) (h : WebsocketHub) :
  (∀ k cl, clients h !! k = Some cl → isSubscribed cl hubMsg = Some false) →
  fanout hubMsg order h = Some h.
Proof.
  intros Hnone. unfold fanout. induction order as [|k rest IH]; simpl; [reflexivity|].
  destruct (clients h !! k) as [cl|] eqn:Hc; [|exact IH].
  unfold signal_or_unregister. rewrite (Hnone k cl Hc). simpl. exact IH.
Qed.

(** X11: an event to which no registered client is subscribed changes
    nothing.  For every message but a single new transaction, if
    [isSubscribed] is false for every client then the turn leaves the hub
    exactly as it was, whatever state the channels are in: no delivery and
    no unregistration, even for clients whose channels are full. *)
Theorem Run_relay_without_subscribers (IsValid : HubMessage → bool)
    (hubMsg : HubMessage) (order1 order2 : list nat) (h : WebsocketHub) :
  Signal hubMsg ≠ SigNewTx →
  (∀ k cl, clients h !! k = Some cl → isSubscribed cl hubMsg = Some false) →
  Run_relay IsValid hubMsg order1 order2 h = Some h.
Proof.
  intros Hsig Hnone. unfold Run_relay.
  destruct (bool_decide (size (clients h) = 0%nat)); [reflexivity|].
  destruct (IsValid hubMsg); [|reflexivity]. simpl.
  pose proof (fanout_no_subscriber hubMsg order2 h Hnone) as Hfan.
  destruct hubMsg as [sig v]. unfold Run_switch, Run_send. simpl in *.
  destruct sig; try reflexivity; try contradiction;
    try (rewrite Hfan; reflexivity).
  destruct v as [|[am|]| | | |]; try reflexivity. rewrite Hfan. reflexivity.
Qed.

Lemma Run_relay_without_subscribers_witness :
  Run_relay IsValid_model ping [0; 1; 2]%nat [0; 1; 2]%nat hub3 = Some hub3.
Proof.
  apply (Run_relay_without_subscribers IsValid_model ping); [discriminate|].
  change (map_Forall (λ _ cl, isSubscribed cl ping = Some false) (clients hub3)).
  refine (bool_decide_unpack _ _). vm_compute. exact I.
Defined.

(** ** What a turn of the hub leaves alone *)

Lemma fanout_at_unregistered (hubMsg : HubMessage) (h h' : WebsocketHub) (k : nat) :
  clients h !! k = None → fanout_at hubMsg h h' k → untouched h h' k.
Proof. intros Hk. unfold fanout_at. rewrite Hk. auto. Qed.

Lemma fanout_at_not_subscribed (hubMsg : HubMessage) (h h' : WebsocketHub)
    (k : nat) (cl : client) :
  clients h !! k = Some cl → isSubscribed cl hubMsg = Some false →
  fanout_at hubMsg h h' k → untouched h h' k.
Proof. intros Hk Hs. unfold fanout_at. rewrite Hk, Hs. auto. Qed.

Lemma fanout_at_subscribed_room (hubMsg : HubMessage) (h h' : WebsocketHub)
    (k : nat) (cl : client) (ch : hubSpoke) :
  clients h !! k = Some cl → isSubscribed cl hubMsg = Some true →
  spokes h !! k = Some ch → (length (queue ch) < cap ch)%nat →
  fanout_at hubMsg h h' k →
  clients h' !! k = Some cl ∧
  spokes h' !! k
  = Some {| queue := queue ch ++ [hubMsg]; cap := cap ch; closed := false |}.
Proof.
  intros Hk Hs Hch Hroom. unfold fanout_at. rewrite Hk, Hs.
  intros (ch' & Hch' & Hat). assert (ch' = ch) as -> by congruence.
  rewrite bool_decide_eq_true_2 in Hat by exact Hroom.
  destruct Hat as (Hc & ch2 & Hch2 & Hq). assert (ch2 = ch) as -> by congruence.
  split; [congruence | exact Hq].
Qed.

(** The end of the relay branch, with everything it keeps. *)
Lemma Run_send_full (hubMsg : HubMessage) (order2 : list nat) (h : WebsocketHub) :
  hub_ok h → NoDup order2 → no_nil_address hubMsg →
  ∃ h', Run_send hubMsg order2 h = Some h' ∧
        hub_ok h' ∧
        (∀ k, k ∈ order2 → fanout_at hubMsg h h' k) ∧
        (∀ j, j ∉ order2 → untouched h h' j) ∧
        (∀ j cl', clients h' !! j = Some cl' → clients h !! j = Some cl') ∧
        bufferTickerChan h' = bufferTickerChan h ∧
        timeToSendTxBuffer h'
        = (if bool_decide (Signal hubMsg = SigNewTxs) then false
           else timeToSendTxBuffer h).
Proof.
  intros Hok Hnd Hn.
  destruct (fanout_spec hubMsg order2 h Hok Hnd (isSubscribed_all hubMsg h Hn))
    as (h2 & Hrun & Hok2 & Hin & Hout & Hsub & Ht & Hb).
  unfold Run_send. rewrite Hrun. simpl.
  destruct (bool_decide (Signal hubMsg = SigNewTxs)).
  - exists (SetTimeToSendTxBuffer h2 false). split; [reflexivity|].
    split; [exact Hok2|]. split; [exact Hin|]. split; [exact Hout|].
    split; [exact Hsub|]. split; [exact Hb | reflexivity].
  - exists h2. split; [reflexivity|].
    split; [exact Hok2|]. split; [exact Hin|]. split; [exact Hout|].
    split; [exact Hsub|]. split; [exact Hb | exact Ht].
Qed.

Lemma Run_send_at (hubMsg : HubMessage) (order2 : list nat) (h h' : WebsocketHub) (k : nat) :
  (∀ j, j ∈ order2 → fanout_at hubMsg h h' j) →
  (∀ j, j ∉ order2 → untouched h h' j) →
  clients h !! k = None ∨
  (∃ cl, clients h !! k = Some cl ∧ isSubscribed cl hubMsg = Some false) →
  untouched h h' k.
Proof.
  intros Hin Hout Hk. destruct (decide (k ∈ order2)) as [Hko|Hko]; [|auto].
  destruct Hk as [Hk|(cl & Hk & Hs)].
  - eapply fanout_at_unregistered; eauto.
  - eapply fanout_at_not_subscribed; eauto.
Qed.

(** X12: relaying an event never alters a client.  For every message but
    a single new transaction, a turn of a running hub can only remove
    clients from the registry: each client that is still registered is
    exactly the client it was, subscriptions and buffer included, and
    neither the flush flag nor the channel to the ticker is touched. *)
Theorem broadcast_keeps_clients (IsValid : HubMessage → bool) (hubMsg : HubMessage)
    (order1 order2 : list nat) (h : WebsocketHub) :
  Signal hubMsg ≠ SigNewTx → hub_ok h → NoDup order2 →
  ∃ h', Run_relay IsValid hubMsg order1 order2 h = Some h' ∧
        (∀ k cl', clients h' !! k = Some cl' → clients h !! k = Some cl') ∧
        timeToSendTxBuffer h' = timeToSendTxBuffer h ∧
        bufferTickerChan h' = bufferTickerChan h.
Proof.
  intros Hsig Hok Hnd. unfold Run_relay.
  destruct (bool_decide (size (clients h) = 0%nat)); [eauto|].
  destruct (IsValid hubMsg); simpl; [|eauto].
  destruct (Run_switch_cases hubMsg order1 h)
    as [Hsw | [(_ & Hn & Hsw) | (tx & -> & Hsw)]]; [rewrite Hsw; eauto | |contradiction].
  rewrite Hsw. rewrite (bool_decide_eq_false_2 _ Hsig).
  destruct (Run_send_full hubMsg order2 h Hok Hnd Hn)
    as (h' & Hrun & _ & _ & _ & Hsub & Hb & Ht).
  exists h'. split; [exact Hrun|]. split; [exact Hsub|]. split; [|exact Hb].
  rewrite Ht. rewrite bool_decide_eq_false_2; [reflexivity|].
  intros Hs. unfold Run_switch in Hsw. rewrite Hs in Hsw. discriminate.
Qed.

Lemma broadcast_keeps_clients_witness :
  ∃ h', Run_relay IsValid_model newblock [0; 1; 2]%nat [0; 1; 2]%nat hub3 = Some h' ∧
        (∀ k cl', clients h' !! k = Some cl' → clients hub3 !! k = Some cl') ∧
        timeToSendTxBuffer h' = timeToSendTxBuffer hub3 ∧
        bufferTickerChan h' = bufferTickerChan hub3.
Proof.
  apply (broadcast_keeps_clients IsValid_model newblock);
    [discriminate | exact hub3_ok | exact (proj1 hub3_order)].
Defined.

(** X13: a key that is not registered is never touched.  Whatever the
    event, a turn of a running hub neither registers such a key nor
    changes the channel it may point to: a client that was evicted, whose
    channel is closed, is not sent to and its channel is not closed a
    second time. *)
Theorem Run_relay_skips_unregistered (IsValid : HubMessage → bool)
    (hubMsg : HubMessage) (order1 order2 : list nat) (h : WebsocketHub) (k : nat) :
  hub_ok h → NoDup order1 → NoDup order2 → clients h !! k = None →
  ∃ h', Run_relay IsValid hubMsg order1 order2 h = Some h' ∧ untouched h h' k.
Proof.
  intros Hok Hnd1 Hnd2 Hk. unfold Run_relay.
  destruct (bool_decide (size (clients h) = 0%nat)); [eauto using untouched_refl|].
  destruct (IsValid hubMsg); simpl; [|eauto using untouched_refl].
  destruct (Run_switch_cases hubMsg order1 h)
    as [Hsw | [(Hsig & Hn & Hsw) | (tx & -> & Hsw)]]; rewrite Hsw.
  - eauto using untouched_refl.
  - rewrite (bool_decide_eq_false_2 _ Hsig).
    destruct (Run_send_full hubMsg order2 h Hok Hnd2 Hn)
      as (h' & Hrun & _ & Hin & Hout & _).
    exists h'. split; [exact Hrun|]. eapply Run_send_at; eauto.
  - rewrite bool_decide_eq_true_2 by reflexivity.
    pose proof (MaybeSendTxns_ok (Some tx) order1 h Hnd1 Hok) as Hok1.
    destruct (MaybeSendTxns_spec (Some tx) order1 h Hnd1) as (Hcl & Hsp & _).
    assert (H1 : untouched h (MaybeSendTxns (Some tx) order1 h).1 k).
    { split; [|rewrite Hsp; reflexivity].
      rewrite Hcl, Hk. destruct (bool_decide (k ∈ order1)); reflexivity. }
    destruct (negb _); [eauto|].
    destruct (Run_send_full newtxs_ready order2 _ Hok1 Hnd2 newtxs_ready_no_nil)
      as (h' & Hrun & _ & Hin & Hout & _).
    exists h'. split; [exact Hrun|].
    eapply untouched_trans; [exact H1|].
    eapply Run_send_at; eauto. left. destruct H1 as [-> _]. exact Hk.
Qed.

Lemma Run_relay_skips_unregistered_witness :
  ∃ h', Run_relay IsValid_model newblock [0; 1; 2]%nat [0; 1; 2]%nat hub3 = Some h' ∧
        untouched hub3 h' 7.
Proof.
  apply (Run_relay_skips_unregistered IsValid_model newblock);
    [exact hub3_ok | exact (proj1 hub3_order) | exact (proj1 hub3_order) | reflexivity].
Defined.

(** ** The flush flag and the ticker *)

Lemma isSubscribed_newtxs_ready (cl : client) :
  isSubscribed cl newtxs_ready = Some (bool_decide (SigNewTxs ∈ subs cl)).
Proof.
  unfold isSubscribed, isSubscribed_log. simpl.
  destruct (bool_decide (SigNewTxs ∈ subs cl)); reflexivity.
Qed.

(** X14: once the ticker has fired, the next transaction flushes.  On a
    running hub whose flag is up, a valid single-new-transaction event is
    turned into the batched event whatever the length of the buffers: the
    flag is down afterwards, and every client subscribed to the batched
    kind whose channel has room holds the transaction at the end of its
    buffer and the batched event at the end of its channel. *)
Theorem ticker_flushes_next_transaction (IsValid : HubMessage → bool) (tx : MempoolTx)
    (order1 order2 : list nat) (h : WebsocketHub) :
  let hubMsg := {| Signal := SigNewTx; Msg := MsgMempoolTxPtr (Some tx) |} in
  hub_ok h → range_order (clients h) order1 → range_order (clients h) order2 →
  clients h ≠ ∅ → IsValid hubMsg = true → timeToSendTxBuffer h = true →
  ∃ h', Run_relay IsValid hubMsg order1 order2 h = Some h' ∧
        timeToSendTxBuffer h' = false ∧
        ∀ k cl ch, clients h !! k = Some cl → SigNewTxs ∈ subs cl →
                   spokes h !! k = Some ch → (length (queue ch) < cap ch)%nat →
                   clients h' !! k = Some (append_tx (Some tx) cl) ∧
                   spokes h' !! k
                   = Some {| queue := queue ch ++ [newtxs_ready]; cap := cap ch;
                             closed := false |}.
Proof.
  intros hubMsg Hok Hord1 Hord2 Hne Hvalid Hflag. unfold Run_relay.
  rewrite bool_decide_eq_false_2 by (rewrite map_size_empty_iff; exact Hne).
  rewrite Hvalid. subst hubMsg. unfold Run_switch. simpl.
  pose proof (MaybeSendTxns_ok (Some tx) order1 h (proj1 Hord1) Hok) as Hok1.
  pose proof (MaybeSendTxns_clients (Some tx) order1 h Hord1) as Hcl.
  destruct (MaybeSendTxns_spec (Some tx) order1 h (proj1 Hord1)) as (_ & Hsp & _ & Ht & _).
  destruct (MaybeSendTxns (Some tx) order1 h) as [h1 r]. simpl in *.
  unfold TimeToSendTxBuffer. rewrite Ht, Hflag, orb_true_r. simpl.
  destruct (Run_send_full newtxs_ready order2 h1 Hok1 (proj1 Hord2) newtxs_ready_no_nil)
    as (h' & Hrun & _ & Hin & _ & _ & _ & Ht').
  exists h'. split; [exact Hrun|]. split; [exact Ht'|].
  intros k cl ch Hk Hs Hch Hroom.
  apply (fanout_at_subscribed_room newtxs_ready h1 h' k (append_tx (Some tx) cl) ch).
  - rewrite Hcl, Hk. reflexivity.
  - rewrite isSubscribed_newtxs_ready. f_equal. apply bool_decide_eq_true_2. exact Hs.
  - rewrite Hsp. exact Hch.
  - exact Hroom.
  - apply Hin. apply (range_order_elem _ _ k Hord2). eauto.
Qed.

(** X15: events reach a client in the order the hub handled them.  Two
    fan-out rounds in a row, to a client subscribed to both events and
    with room for two in its channel, leave the two events at the end of
    the channel, the first before the second, and the client registered. *)
Theorem fanout_fifo (m1 m2 : HubMessage) (order order' : list nat)
    (h : WebsocketHub) (k : nat) (cl : client) (ch : hubSpoke) :
  hub_ok h → NoDup order → NoDup order' → k ∈ order → k ∈ order' →
  no_nil_address m1 → no_nil_address m2 →
  clients h !! k = Some cl →
  isSubscribed cl m1 = Some true → isSubscribed cl m2 = Some true →
  spokes h !! k = Some ch → (S (length (queue ch)) < cap ch)%nat →
  ∃ h1 h2, fanout m1 order h = Some h1 ∧ fanout m2 order' h1 = Some h2 ∧
           clients h2 !! k = Some cl ∧
           spokes h2 !! k
           = Some {| queue := queue ch ++ [m1; m2]; cap := cap ch; closed := false |}.
Proof.
  intros Hok Hnd Hnd' Hin Hin' Hn1 Hn2 Hk Hs1 Hs2 Hch Hroom.
  destruct (fanout_spec m1 order h Hok Hnd (isSubscribed_all m1 h Hn1))
    as (h1 & Hrun1 & Hok1 & Hat1 & _).
  destruct (fanout_at_subscribed_room m1 h h1 k cl ch Hk Hs1 Hch) as [Hk1 Hch1];
    [lia | apply Hat1; exact Hin |].
  destruct (fanout_spec m2 order' h1 Hok1 Hnd' (isSubscribed_all m2 h1 Hn2))
    as (h2 & Hrun2 & _ & Hat2 & _).
  destruct (fanout_at_subscribed_room m2 h1 h2 k cl _ Hk1 Hs2 Hch1) as [Hk2 Hch2];
    [simpl; rewrite length_app; simpl; lia | apply Hat2; exact Hin' |].
  exists h1, h2. split; [exact Hrun1|]. split; [exact Hrun2|]. split; [exact Hk2|].
  rewrite Hch2. simpl. rewrite <- app_assoc. reflexivity.
Qed.

Lemma fanout_fifo_witness :
  ∃ h1 h2, fanout newblock [0; 1; 2]%nat hub3 = Some h1 ∧
           fanout newblock [2; 0]%nat h1 = Some h2 ∧
           clients h2 !! 0%nat = Some (subscriber SigNewBlock) ∧
           spokes h2 !! 0%nat
           = Some {| queue := [] ++ [newblock; newblock]; cap := hubSpokeSize;
                     closed := false |}.
Proof.
  apply (fanout_fifo newblock newblock [0; 1; 2]%nat [2; 0]%nat hub3 0%nat
           (subscriber SigNewBlock) (make_hubSpoke hubSpokeSize)).
  - exact hub3_ok.
  - exact (proj1 hub3_order).
  - refine (bool_decide_unpack _ _). vm_compute. exact I.
  - refine (bool_decide_unpack _ _). vm_compute. exact I.
  - refine (bool_decide_unpack _ _). vm_compute. exact I.
  - intros H. discriminate H.
  - intros H. discriminate H.
  - reflexivity.
  - reflexivity.
  - reflexivity.
  - reflexivity.
  - simpl. unfold hubSpokeSize. lia.
Defined.

Lemma hub_two_ok : hub_ok hub_two.
Proof. split; [|reflexivity]. refine (bool_decide_unpack _ _). vm_compute. exact I. Qed.

Lemma hub_two_order : range_order (clients hub_two) [0; 1]%nat.
Proof. split; refine (bool_decide_unpack _ _); vm_compute; exact I. Qed.

Lemma hub_two_clients : clients hub_two ≠ ∅.
Proof.
  intros H. apply (f_equal (λ m, is_Some (m !! 0%nat))) in H.
  assert (Hs : is_Some (clients hub_two !! 0%nat)) by (vm_compute; eauto).
  rewrite H in Hs. destruct Hs as [? Hs]. rewrite lookup_empty in Hs. discriminate.
Qed.

Lemma ticker_flushes_next_transaction_witness :
  ∃ h', Run_relay IsValid_model (newtx "t5") [0; 1]%nat [0; 1]%nat
          (SetTimeToSendTxBuffer hub_two true) = Some h' ∧
        timeToSendTxBuffer h' = false ∧
        ∀ k cl ch, clients hub_two !! k = Some cl → SigNewTxs ∈ subs cl →
                   spokes hub_two !! k = Some ch → (length (queue ch) < cap ch)%nat →
                   clients h' !! k = Some (append_tx (Some {| Hash := "t5" |}) cl) ∧
                   spokes h' !! k
                   = Some {| queue := queue ch ++ [newtxs_ready]; cap := cap ch;
                             closed := false |}.
Proof.
  exact (ticker_flushes_next_transaction IsValid_model {| Hash := "t5" |}
           [0; 1]%nat [0; 1]%nat (SetTimeToSendTxBuffer hub_two true)
           hub_two_ok hub_two_order hub_two_order hub_two_clients eq_refl eq_refl).
Defined.

(** A transaction event and a client that is not subscribed to the
    batched kind: the client stays, one transaction longer. *)
Lemma Run_relay_newtx_unsubscribed (IsValid : HubMessage → bool) (tx : MempoolTx)
    (order1 order2 : list nat) (h : WebsocketHub) (k : nat) (cl : client) :
  let hubMsg := {| Signal := SigNewTx; Msg := MsgMempoolTxPtr (Some tx) |} in
  hub_ok h → range_order (clients h) order1 → NoDup order2 →
  IsValid hubMsg = true →
  clients h !! k = Some cl → SigNewTxs ∉ subs cl →
  ∃ h', Run_relay IsValid hubMsg order1 order2 h = Some h' ∧
        hub_ok h' ∧
        clients h' !! k = Some (append_tx (Some tx) cl).
Proof.
  intros hubMsg Hok Hord1 Hnd2 Hvalid Hk Hs. unfold Run_relay.
  rewrite bool_decide_eq_false_2.
  2:{ rewrite map_size_empty_iff. intros Hempty. rewrite Hempty, lookup_empty in Hk.
      discriminate. }
  rewrite Hvalid. subst hubMsg. unfold Run_switch. simpl.
  pose proof (MaybeSendTxns_ok (Some tx) order1 h (proj1 Hord1) Hok) as Hok1.
  pose proof (MaybeSendTxns_clients (Some tx) order1 h Hord1) as Hcl.
  destruct (MaybeSendTxns (Some tx) order1 h) as [h1 r]. simpl in *.
  assert (Hk1 : clients h1 !! k = Some (append_tx (Some tx) cl))
    by (rewrite Hcl, Hk; reflexivity).
  destruct (r || TimeToSendTxBuffer h1); simpl; [|eauto].
  destruct (Run_send_full newtxs_ready order2 h1 Hok1 Hnd2 newtxs_ready_no_nil)
    as (h' & Hrun & Hok' & Hin & Hout & _).
  exists h'. split; [exact Hrun|]. split; [exact Hok'|].
  assert (Hun : untouched h1 h' k).
  { eapply Run_send_at; eauto. right. eexists. split; [exact Hk1|].
    rewrite isSubscribed_newtxs_ready. f_equal. apply bool_decide_eq_false_2. exact Hs. }
  destruct Hun as [-> _]. exact Hk1.
Qed.

(** X16: the buffer of a client that is not subscribed to the batched
    kind grows without bound.  Over any number of valid transaction events
    handled by a running hub, such a client stays registered and ends with
    every one of the transactions appended to its buffer, in the order of
    their arrival. *)
Theorem unsubscribed_buffer_accumulates (IsValid : HubMessage → bool)
    (k : nat) (l : list (MempoolTx * list nat * list nat)) :
  (∀ tx, IsValid {| Signal := SigNewTx; Msg := MsgMempoolTxPtr (Some tx) |} = true) →
  ∀ h cl,
    hub_ok h → clients h !! k = Some cl → SigNewTxs ∉ subs cl →
    events_ok IsValid h (tx_event <$> l) →
    ∃ h', Run IsValid h (tx_event <$> l) = Some (Running h') ∧
          clients h' !! k
          = Some (set_newTxs cl (newTxs cl ++ ((λ e, Some e.1.1) <$> l))).
Proof.
  intros Hvalid. induction l as [|[[tx o1] o2] l IH]; intros h cl Hok Hk Hs Hevs.
  - exists h. split; [reflexivity|]. rewrite Hk. simpl. rewrite app_nil_r.
    destruct cl; reflexivity.
  - rewrite !fmap_cons in *. destruct Hevs as [[Ho1 Ho2] Hrest].
    destruct (Run_relay_newtx_unsubscribed IsValid tx o1 o2 h k cl Hok Ho1 (proj1 Ho2)
                (Hvalid tx) Hk Hs) as (h1 & Hrun & Hok1 & Hk1).
    assert (Hstep : Run_step IsValid h (tx_event (tx, o1, o2)) = Some (Running h1)).
    { unfold tx_event. cbn [Run_step fst snd]. rewrite Hrun. reflexivity. }
    destruct (IH h1 (append_tx (Some tx) cl) Hok1 Hk1 Hs (Hrest h1 Hstep))
      as (h' & Hrun' & Hk').
    exists h'. split.
    + cbn [Run]. rewrite Hstep. simpl. exact Hrun'.
    + rewrite Hk'. unfold append_tx. simpl. rewrite <- app_assoc. reflexivity.
Qed.

Lemma unsubscribed_buffer_accumulates_witness :
  ∃ h', Run IsValid_model hub_five
          (tx_event <$> [ ({| Hash := "t6" |}, [0%nat], [0%nat]);
                          ({| Hash := "t7" |}, [0%nat], [0%nat]) ])
        = Some (Running h') ∧
        clients h' !! 0%nat
        = Some (set_newTxs newClient
                  ([Some {| Hash := "t1" |}; Some {| Hash := "t2" |};
                    Some {| Hash := "t3" |}; Some {| Hash := "t4" |};
                    Some {| Hash := "t5" |}]
                   ++ ((λ e : MempoolTx * list nat * list nat, Some e.1.1)
                         <$> [ ({| Hash := "t6" |}, [0%nat], [0%nat]);
                               ({| Hash := "t7" |}, [0%nat], [0%nat]) ]))).
Proof.
  apply (unsubscribed_buffer_accumulates IsValid_model 0%nat
           [ ({| Hash := "t6" |}, [0%nat], [0%nat]);
             ({| Hash := "t7" |}, [0%nat], [0%nat]) ]
           (λ tx, eq_refl) hub_five
           (set_newTxs newClient
              [Some {| Hash := "t1" |}; Some {| Hash := "t2" |};
               Some {| Hash := "t3" |}; Some {| Hash := "t4" |};
               Some {| Hash := "t5" |}])).
  - exact hub_five_ok.
  - vm_compute. reflexivity.
  - simpl. set_solver.
  - repeat (split;
            [ split; (split; refine (bool_decide_unpack _ _); vm_compute; exact I)
            | intros ? Hstep; vm_compute in Hstep; injection Hstep as <- ]).
    exact I.
Defined.

Lemma MaybeSendTxns_ticker (tx : ptr MempoolTx) (order : list nat) (h : WebsocketHub) :
  NoDup order →
  bufferTickerChan (MaybeSendTxns tx order h).1
  = bufferTickerChan h
    ++ (if (MaybeSendTxns tx order h).2 then [tickerSigReset] else []).
Proof.
  intros Hnd. unfold MaybeSendTxns, addTxToBuffer.
  pose proof (addTxToBuffer_range_spec tx order h false Hnd) as Hspec.
  destruct (addTxToBuffer_range tx order h false) as [h1 r]. simpl in *.
  destruct Hspec as (_ & _ & _ & _ & Hb).
  destruct r; simpl; rewrite Hb; [reflexivity | rewrite app_nil_r; reflexivity].
Qed.

(** X17: the ticker is told to start over only when a buffer is ready.
    On a valid transaction event a running hub sends [tickerSigReset] to
    the ticker goroutine exactly when the buffer of the client its
    [addTxToBuffer] walk visits last has reached [NewTxBufferSize]; a
    flush that happens only because the ticker had fired sends it
    nothing. *)
Theorem ticker_reset_when_buffer_ready (IsValid : HubMessage → bool) (tx : MempoolTx)
    (before : list nat) (k : nat) (cl : client) (order2 : list nat) (h : WebsocketHub) :
  let hubMsg := {| Signal := SigNewTx; Msg := MsgMempoolTxPtr (Some tx) |} in
  hub_ok h → NoDup (before ++ [k]) → NoDup order2 →
  clients h !! k = Some cl → IsValid hubMsg = true →
  ∃ h', Run_relay IsValid hubMsg (before ++ [k]) order2 h = Some h' ∧
        bufferTickerChan h'
        = bufferTickerChan h ++ (if ready_after cl then [tickerSigReset] else []).
Proof.
  intros hubMsg Hok Hnd1 Hnd2 Hk Hvalid. subst hubMsg.
  rewrite (Run_relay_newtx_decision IsValid tx before k cl order2 h Hnd1 Hk Hvalid).
  pose proof (MaybeSendTxns_ok (Some tx) (before ++ [k]) h Hnd1 Hok) as Hok1.
  pose proof (MaybeSendTxns_ticker (Some tx) (before ++ [k]) h Hnd1) as Hb.
  destruct (MaybeSendTxns_spec (Some tx) (before ++ [k]) h Hnd1) as (_ & _ & _ & _ & Hr).
  unfold addTxToBuffer in Hr.
  rewrite (addTxToBuffer_range_flag (Some tx) k cl before h false Hnd1 Hk) in Hr.
  rewrite Hr in Hb.
  destruct (ready_after cl || timeToSendTxBuffer h).
  - destruct (Run_send_full newtxs_ready order2 _ Hok1 Hnd2 newtxs_ready_no_nil)
      as (h' & Hrun & _ & _ & _ & _ & Hb' & _).
    exists h'. split; [exact Hrun|]. rewrite Hb'. exact Hb.
  - eexists. split; [reflexivity | exact Hb].
Qed.

Lemma ticker_reset_when_buffer_ready_witness :
  ∃ h', Run_relay IsValid_model (newtx "t5") ([1%nat] ++ [0%nat]) [0; 1]%nat hub_two
        = Some h' ∧
        bufferTickerChan h'
        = bufferTickerChan hub_two
          ++ (if ready_after
                   (set_newTxs (subscriber SigNewTxs)
                      [Some {| Hash := "t1" |}; Some {| Hash := "t2" |};
                       Some {| Hash := "t3" |}; Some {| Hash := "t4" |}])
              then [tickerSigReset] else []).
Proof.
  apply (ticker_reset_when_buffer_ready IsValid_model {| Hash := "t5" |} [1%nat] 0%nat).
  - exact hub_two_ok.
  - refine (bool_decide_unpack _ _). vm_compute. exact I.
  - exact (proj1 hub_two_order).
  - vm_compute. reflexivity.
  - reflexivity.
Defined.

(** ** The send pump *)

Lemma sendLoop_switch_cases (c : client) (sig : HubMessage) (bi inv : bool) (n : nat) :
  sendLoop_switch c sig bi inv n = Skip ∨
  (∃ b, sendLoop_switch c sig bi inv n = DoPush c b) ∨
  (Signal sig = SigNewTxs ∧ newTxs c ≠ [] ∧
   sendLoop_switch c sig bi inv n = DoPush (set_newTxs c []) (BodyTxs (newTxs c))).
Proof.
  unfold sendLoop_switch. destruct (Signal sig); eauto.
  - destruct bi; eauto.
  - destruct inv; eauto.
  - destruct (decide (length (newTxs c) = 0%nat)) as [Hz|Hnz].
    + rewrite (bool_decide_eq_true_2 _ Hz). eauto.
    + rewrite (bool_decide_eq_false_2 _ Hnz). right; right.
      split; [reflexivity|]. split; [|reflexivity].
      intros Hnil. rewrite Hnil in Hnz. contradiction.
  - destruct (Msg sig); eauto.
Qed.

(** X18: what a turn of the send pump can do.  It never changes the
    client's subscriptions; it changes the buffer only by emptying it, and
    only on a batched event the client is subscribed to; and it writes at
    most one message, named after the signal received, and only for a
    valid signal the client is subscribed to. *)
Theorem sendLoop_turn_effects (IsValid : HubMessage → bool) (c : client)
    (sel : Selected) (bi inv : bool) (n : nat) (send_ok : bool) (t : Turn Push) :
  sendLoop_turn IsValid c sel bi inv n send_ok = Some t →
  subs (turn_client t) = subs c ∧ addrs (turn_client t) = addrs c ∧
  (newTxs (turn_client t) = newTxs c ∨
   (newTxs (turn_client t) = [] ∧
    ∃ sig, sel = SelSig (Some sig) ∧ Signal sig = SigNewTxs ∧
           isSubscribed c sig = Some true)) ∧
  (turn_sent t = [] ∨
   ∃ sig b, sel = SelSig (Some sig) ∧
            turn_sent t = [ {| pushSignal := Signal sig; pushBody := b |} ] ∧
            IsValid sig = true ∧ isSubscribed c sig = Some true ∧
            send_ok = true ∧ turn_ctl t = LoopContinue).
Proof.
  unfold sendLoop_turn.
  destruct sel as [[sig|]|]; try (intros [= <-]; simpl; repeat split; auto).
  destruct (IsValid sig) eqn:Hvalid; simpl; [|intros [= <-]; simpl; repeat split; auto].
  destruct (isSubscribed c sig) as [[|]|] eqn:Hsub; simpl;
    [| intros [= <-]; simpl; repeat split; auto | discriminate].
  destruct (sendLoop_switch_cases c sig bi inv n)
    as [Hsw | [(b & Hsw) | (Hsig & Hne & Hsw)]]; rewrite Hsw.
  - intros [= <-]; simpl; repeat split; auto.
  - destruct send_ok; intros [= <-]; simpl;
      (split; [reflexivity|]); (split; [reflexivity|]); (split; [left; reflexivity|]).
    + right. exists sig, b. repeat split; assumption.
    + left. reflexivity.
  - assert (Hdrained : ∃ sig0, SelSig (Some sig) = SelSig (Some sig0) ∧
                               Signal sig0 = SigNewTxs ∧ isSubscribed c sig0 = Some true)
      by (exists sig; repeat split; assumption).
    destruct send_ok; intros [= <-]; simpl;
      (split; [reflexivity|]); (split; [reflexivity|]);
      (split; [right; split; [reflexivity | exact Hdrained]|]).
    + right. exists sig, (BodyTxs (newTxs c)). repeat split; assumption.
    + left. reflexivity.
Qed.

Lemma sendLoop_turn_effects_witness :
  ∃ t, sendLoop_turn IsValid_model (subscriber SigNewBlock) (SelSig (Some newblock))
         true true 3 true = Some t ∧
       subs (turn_client t) = subs (subscriber SigNewBlock) ∧
       turn_sent t = [ {| pushSignal := SigNewBlock; pushBody := BodyBlock |} ].
Proof.
  eexists. split; [reflexivity|].
  destruct (sendLoop_turn_effects IsValid_model (subscriber SigNewBlock)
              (SelSig (Some newblock)) true true 3 true _ eq_refl) as (Hs & _).
  split; [exact Hs | reflexivity].
Defined.

(** X19: a batch whose write fails is lost.  On a batched event for a
    subscribed client with a non-empty buffer, the pump empties the buffer
    before it writes; if the write then fails the loop returns with nothing
    sent and the buffer empty. *)
Theorem sendLoop_failed_send_loses_batch (IsValid : HubMessage → bool) (c : client)
    (sig : HubMessage) (bi inv : bool) (n : nat) :
  Signal sig = SigNewTxs → IsValid sig = true → SigNewTxs ∈ subs c →
  newTxs c ≠ [] →
  sendLoop_turn IsValid c (SelSig (Some sig)) bi inv n false
  = Some {| turn_client := set_newTxs c []; turn_sent := []; turn_ctl := LoopReturn |}.
Proof.
  intros Hsig Hv Hs Hne. unfold sendLoop_turn. rewrite Hv. simpl.
  unfold isSubscribed, isSubscribed_log, sendLoop_switch. rewrite Hsig.
  rewrite (bool_decide_eq_true_2 _ Hs). simpl.
  rewrite bool_decide_eq_false_2; [reflexivity|].
  destruct (newTxs c); [congruence | discriminate].
Qed.

Lemma sendLoop_failed_send_loses_batch_witness :
  sendLoop_turn IsValid_model
    (set_newTxs (subscriber SigNewTxs) [Some {| Hash := "t1" |}])
    (SelSig (Some newtxs_ready)) true true 1 false
  = Some {| turn_client := set_newTxs (subscriber SigNewTxs) [];
            turn_sent := []; turn_ctl := LoopReturn |}.
Proof.
  apply (sendLoop_failed_send_loses_batch IsValid_model
           (set_newTxs (subscriber SigNewTxs) [Some {| Hash := "t1" |}]) newtxs_ready);
    [reflexivity | reflexivity | simpl; set_solver | discriminate].
Defined.

(** ** The receive pump *)

Lemma subscribe_newTxs (c c' : client) (msg : HubMessage) (e : error) :
  subscribe c msg = Some (c', e) → newTxs c' = newTxs c.
Proof.
  unfold subscribe.
  destruct (Signal msg); try destruct (Msg msg) as [|[am|]| | | |];
    simpl; try discriminate; intros [= <- _]; reflexivity.
Qed.

Lemma unsubscribe_newTxs (c c' : client) (msg : HubMessage) (e : error) :
  unsubscribe c msg = Some (c', e) → newTxs c' = newTxs c.
Proof.
  unfold unsubscribe.
  destruct (Signal msg); try destruct (Msg msg) as [|[am|]| | | |];
    simpl; try discriminate; intros [= <- _]; reflexivity.
Qed.

(** A well-formed request carried out: the two directions at once. *)
Lemma subscribe_then_isSubscribed_aux (c : client) (msg : HubMessage) :
  wellformed_request msg = true →
  ∃ c', subscribe c msg = Some (c', None) ∧ isSubscribed c' msg = Some true.
Proof.
  intros Hwf. destruct (subscribe_idempotent c msg Hwf) as (c1 & Hsub & Hagain).
  exists c1. split; [exact Hsub|].
  unfold wellformed_request in Hwf. unfold subscribe in Hsub.
  destruct msg as [sig v]; simpl in *.
  destruct sig; try destruct v as [|[am|]| | | |]; try discriminate;
    simpl in Hsub; injection Hsub as <-;
    try rewrite isSubscribed_address;
    unfold isSubscribed, isSubscribed_log; simpl;
    rewrite bool_decide_eq_true_2 by set_solver; reflexivity.
Qed.

Lemma unsubscribe_then_not_subscribed_aux (c : client) (msg : HubMessage) :
  wellformed_request msg = true →
  ∃ c', unsubscribe c msg = Some (c', None) ∧ isSubscribed c' msg = Some false.
Proof.
  intros Hwf. destruct (unsubscribe_succeeds c msg Hwf) as (c1 & Hunsub).
  exists c1. split; [exact Hunsub|].
  unfold wellformed_request in Hwf. unfold unsubscribe in Hunsub.
  destruct msg as [sig v]; simpl in *.
  destruct sig; try destruct v as [|[am|]| | | |]; try discriminate;
    simpl in Hunsub; injection Hunsub as <-;
    try rewrite isSubscribed_address;
    unfold isSubscribed, isSubscribed_log; simpl;
    rewrite bool_decide_eq_false_2 by set_solver; reflexivity.
Qed.

Lemma malformed_address_request_refused_aux (c : client) (v : MsgValue) :
  (∀ p, v ≠ MsgAddressPtr p) →
  subscribe c {| Signal := SigAddressTx; Msg := v |}
  = Some (c, Some ("msg.Msg not a string (SigAddressTx): " +:+ typeName v)) ∧
  unsubscribe c {| Signal := SigAddressTx; Msg := v |}
  = Some (c, Some ("msg.Msg not an AddressMessage (SigAddressTx): " +:+ typeName v)).
Proof.
  intros Hv. unfold subscribe, unsubscribe. simpl.
  destruct v; try (split; reflexivity).
  exfalso. eapply Hv. reflexivity.
Qed.

Section ReceiveLoopFacts.

Variable ValidateSubscription : string → HubSignal * MsgValue * bool.
Variable DecodeRawTransaction : string → option string + string.
Variable SendRawTransaction : string → string + string.

Let switch := receiveLoop_switch ValidateSubscription DecodeRawTransaction SendRawTransaction.
Let turn := receiveLoop_turn ValidateSubscription DecodeRawTransaction SendRawTransaction.

Lemma receiveLoop_switch_cases (c : client) (msg : WebSocketMessage)
    (mempoolJSON : option string) (reply : Reply) :
  switch c msg mempoolJSON = Some reply →
  reply = NoReply ∨
  ∃ c' m, reply = ReplyWith c' m ∧ newTxs c' = newTxs c ∧ EventId msg ∈ answered_ids.
Proof.
  unfold switch, receiveLoop_switch, answered_ids.
  destruct (String.eqb (EventId msg) "subscribe") eqn:E1.
  { apply String.eqb_eq in E1. rewrite E1.
    destruct (ValidateSubscription (Message msg)) as [[sig v] valid].
    destruct valid; simpl.
    - destruct (subscribe c {| Signal := sig; Msg := v |}) as [[c' err]|] eqn:Hsub;
        [|discriminate]. simpl.
      pose proof (subscribe_newTxs _ _ _ _ Hsub) as Hb.
      destruct err; intros [= <-]; right; eexists _, _;
        (split; [reflexivity|]); (split; [exact Hb|]); set_solver.
    - intros [= <-]. right. eexists _, _. split; [reflexivity|].
      split; [reflexivity|]. set_solver. }
  destruct (String.eqb (EventId msg) "unsubscribe") eqn:E2.
  { apply String.eqb_eq in E2. rewrite E2.
    destruct (ValidateSubscription (Message msg)) as [[sig v] valid].
    destruct valid; simpl.
    - destruct (unsubscribe c {| Signal := sig; Msg := v |}) as [[c' err]|] eqn:Hsub;
        [|discriminate]. simpl.
      pose proof (unsubscribe_newTxs _ _ _ _ Hsub) as Hb.
      destruct err; intros [= <-]; right; eexists _, _;
        (split; [reflexivity|]); (split; [exact Hb|]); set_solver.
    - intros [= <-]. right. eexists _, _. split; [reflexivity|].
      split; [reflexivity|]. set_solver. }
  destruct (String.eqb (EventId msg) "decodetx") eqn:E3.
  { apply String.eqb_eq in E3. rewrite E3.
    destruct (DecodeRawTransaction (Message msg)) as [[b|]|e];
      intros [= <-]; right; eexists _, _;
      (split; [reflexivity|]); (split; [reflexivity|]); set_solver. }
  destruct (String.eqb (EventId msg) "sendtx") eqn:E4.
  { apply String.eqb_eq in E4. rewrite E4.
    destruct (SendRawTransaction (Message msg)) as [txid|e];
      intros [= <-]; right; eexists _, _;
      (split; [reflexivity|]); (split; [reflexivity|]); set_solver. }
  destruct (String.eqb (EventId msg) "getmempooltxs") eqn:E5.
  { apply String.eqb_eq in E5. rewrite E5.
    destruct mempoolJSON as [b|];
      intros [= <-]; right; eexists _, _;
      (split; [reflexivity|]); (split; [reflexivity|]); set_solver. }
  destruct (String.eqb (EventId msg) "ping"); intros [= <-]; left; reflexivity.
Qed.


(** X20: what a turn of the receive pump can do.  It never touches the
    transaction buffer.  It writes at most one message, and only in answer
    to a request within the size limit whose event id is one of the five it
    answers; the response carries the request's event id followed by
    "Resp".  No other turn writes anything: not a timeout, not a ping, not
    an unknown event id. *)
Theorem receiveLoop_turn_effects (requestLimit : Z) (c : client) (r : Received)
    (mempoolJSON : option string) (send_ok : bool) (t : Turn WebSocketMessage) :
  turn requestLimit c r mempoolJSON send_ok = Some t →
  newTxs (turn_client t) = newTxs c ∧
  (turn_sent t = [] ∨
   ∃ msg m, r = RecvMessage msg ∧
            turn_sent t = [ {| EventId := EventId msg +:+ "Resp"; Message := m |} ] ∧
            (len (Message msg) ≤ requestLimit)%Z ∧
            EventId msg ∈ answered_ids ∧
            send_ok = true ∧ turn_ctl t = LoopContinue).
Proof.
  unfold turn, receiveLoop_turn.
  destruct r as [|e|msg]; try (intros [= <-]; simpl; auto).
  destruct (decide (requestLimit < len (Message msg))%Z) as [Hbig|Hfit].
  { rewrite (bool_decide_eq_true_2 _ Hbig). intros [= <-]; simpl; auto. }
  rewrite (bool_decide_eq_false_2 _ Hfit).
  destruct (receiveLoop_switch _ _ _ c msg mempoolJSON) as [reply|] eqn:Hsw;
    [|discriminate]. simpl.
  destruct (receiveLoop_switch_cases c msg mempoolJSON reply Hsw)
    as [-> | (c' & m & -> & Hb & Hid)].
  - intros [= <-]; simpl; auto.
  - destruct send_ok; intros [= <-]; simpl; (split; [exact Hb|]); [|left; reflexivity].
    right. exists msg, m. repeat split; [lia | exact Hid].
Qed.

(** X21: a subscription that [ValidateSubscription] accepts and that is
    well formed is carried out and acknowledged.  On "subscribe" the
    client afterwards accepts the message subscribed to and the response
    is the request's text followed by " subscribe ok"; on "unsubscribe"
    the client afterwards rejects it and the response ends in
    " unsubscribe ok". *)
Theorem receiveLoop_subscription_acknowledged (requestLimit : Z) (c : client)
    (text : string) (sig : HubSignal) (v : MsgValue) (mempoolJSON : option string) :
  let hubMsg := {| Signal := sig; Msg := v |} in
  ValidateSubscription text = (sig, v, true) →
  wellformed_request hubMsg = true →
  (len text ≤ requestLimit)%Z →
  (∃ c1, turn requestLimit c (RecvMessage {| EventId := "subscribe"; Message := text |})
           mempoolJSON true
         = Some {| turn_client := c1;
                   turn_sent := [ {| EventId := "subscribeResp";
                                     Message := text +:+ " subscribe ok" |} ];
                   turn_ctl := LoopContinue |} ∧
         isSubscribed c1 hubMsg = Some true) ∧
  (∃ c2, turn requestLimit c (RecvMessage {| EventId := "unsubscribe"; Message := text |})
           mempoolJSON true
         = Some {| turn_client := c2;
                   turn_sent := [ {| EventId := "unsubscribeResp";
                                     Message := text +:+ " unsubscribe ok" |} ];
                   turn_ctl := LoopContinue |} ∧
         isSubscribed c2 hubMsg = Some false).
Proof.
  intros hubMsg Hvs Hwf Hfit.
  assert (Hlim : bool_decide (requestLimit < len text)%Z = false)
    by (apply bool_decide_eq_false_2; lia).
  destruct (subscribe_then_isSubscribed_aux c hubMsg Hwf) as (c1 & Hsub & Hs1).
  destruct (unsubscribe_then_not_subscribed_aux c hubMsg Hwf) as (c2 & Hunsub & Hs2).
  split.
  - exists c1. split; [|exact Hs1].
    unfold turn, receiveLoop_turn, receiveLoop_switch. simpl.
    rewrite Hlim, Hvs. simpl. fold hubMsg. rewrite Hsub. reflexivity.
  - exists c2. split; [|exact Hs2].
    unfold turn, receiveLoop_turn, receiveLoop_switch. simpl.
    rewrite Hlim, Hvs. simpl. fold hubMsg. rewrite Hunsub. reflexivity.
Qed.


(** X22: a subscription that is not valid is answered and changes
    nothing.  When [ValidateSubscription] rejects the text of a
    "subscribe" or "unsubscribe" request, or accepts it as address
    activity with a payload that is not a [*AddressMessage], the response
    is "invalid subscription", the client is as it was, and the loop goes
    on. *)
Theorem receiveLoop_invalid_subscription (requestLimit : Z) (c : client)
    (id text : string) (mempoolJSON : option string) :
  id = "subscribe" ∨ id = "unsubscribe" →
  (len text ≤ requestLimit)%Z →
  (ValidateSubscription text).2 = false ∨
  (∃ v, ValidateSubscription text = (SigAddressTx, v, true) ∧
        ∀ p, v ≠ MsgAddressPtr p) →
  turn requestLimit c (RecvMessage {| EventId := id; Message := text |})
    mempoolJSON true
  = Some {| turn_client := c;
            turn_sent := [ {| EventId := id +:+ "Resp";
                              Message := "invalid subscription" |} ];
            turn_ctl := LoopContinue |}.
Proof.
  intros Hid Hfit Hbad.
  assert (Hlim : bool_decide (requestLimit < len text)%Z = false)
    by (apply bool_decide_eq_false_2; lia).
  unfold turn, receiveLoop_turn, receiveLoop_switch. simpl. rewrite Hlim.
  destruct Hbad as [Hbad | (v & Hvs & Hv)].
  - destruct (ValidateSubscription text) as [[sig v] valid]. simpl in Hbad. subst valid.
    destruct Hid as [-> | ->]; reflexivity.
  - rewrite Hvs.
    destruct (malformed_address_request_refused_aux c v Hv) as [Hsub Hunsub].
    destruct Hid as [-> | ->]; simpl; [rewrite Hsub | rewrite Hunsub]; reflexivity.
Qed.



End ReceiveLoopFacts.

Lemma receiveLoop_turn_effects_witness :
  ∃ t, receiveLoop_turn ValidateSubscription_model no_decoder no_node
         MaxPayloadBytes newClient
         (RecvMessage {| EventId := "sendtx"; Message := "00" |}) None true = Some t ∧
       newTxs (turn_client t) = newTxs newClient ∧
       turn_sent t = [ {| EventId := "sendtxResp"; Message := "Error: no node" |} ].
Proof.
  eexists. split; [reflexivity|].
  destruct (receiveLoop_turn_effects ValidateSubscription_model no_decoder no_node
              MaxPayloadBytes newClient
              (RecvMessage {| EventId := "sendtx"; Message := "00" |}) None true _ eq_refl)
    as [Hb _].
  split; [exact Hb | reflexivity].
Defined.

Lemma receiveLoop_subscription_acknowledged_witness :
  (∃ c1, receiveLoop_turn ValidateSubscription_model no_decoder no_node
           MaxPayloadBytes newClient
           (RecvMessage {| EventId := "subscribe"; Message := "address:B" |}) None true
         = Some {| turn_client := c1;
                   turn_sent := [ {| EventId := "subscribeResp";
                                     Message := "address:B" +:+ " subscribe ok" |} ];
                   turn_ctl := LoopContinue |} ∧
         isSubscribed c1 (addr_msg "B") = Some true) ∧
  (∃ c2, receiveLoop_turn ValidateSubscription_model no_decoder no_node
           MaxPayloadBytes newClient
           (RecvMessage {| EventId := "unsubscribe"; Message := "address:B" |}) None true
         = Some {| turn_client := c2;
                   turn_sent := [ {| EventId := "unsubscribeResp";
                                     Message := "address:B" +:+ " unsubscribe ok" |} ];
                   turn_ctl := LoopContinue |} ∧
         isSubscribed c2 (addr_msg "B") = Some false).
Proof.
  apply (receiveLoop_subscription_acknowledged ValidateSubscription_model no_decoder
           no_node MaxPayloadBytes newClient "address:B" SigAddressTx
           (MsgAddressPtr (Some {| Address := "B"; TxHash := "" |})) None);
    [reflexivity | reflexivity | vm_compute; discriminate].
Defined.

Lemma receiveLoop_invalid_subscription_witness :
  receiveLoop_turn ValidateSubscription_model no_decoder no_node
    MaxPayloadBytes client_B
    (RecvMessage {| EventId := "unsubscribe"; Message := "blocks" |}) None true
  = Some {| turn_client := client_B;
            turn_sent := [ {| EventId := "unsubscribe" +:+ "Resp";
                              Message := "invalid subscription" |} ];
            turn_ctl := LoopContinue |}.
Proof.
  apply (receiveLoop_invalid_subscription ValidateSubscription_model no_decoder no_node
           MaxPayloadBytes client_B "unsubscribe" "blocks" None);
    [right; reflexivity | vm_compute; discriminate | left; reflexivity].
Defined.


(** ** The demo client *)

Lemma strInSlice_from_spec (sl : list string) (str : string) :
  ∀ i0, match democlient.strInSlice_from i0 sl str with
        | (true, i) =>
            (i0 ≤ i)%Z ∧ sl !! Z.to_nat (i - i0) = Some str ∧
            ∀ j, j < Z.to_nat (i - i0) → sl !! j ≠ Some str
        | (false, i) => i = (-1)%Z ∧ str ∉ sl
        end.
Proof.
  induction sl as [|s rest IH]; intros i0; simpl.
  - split; [reflexivity | apply not_elem_of_nil].
  - destruct (String.eqb s str) eqn:E.
    + apply String.eqb_eq in E. subst s.
      replace (i0 - i0)%Z with 0%Z by lia. simpl.
      split; [lia|]. split; [reflexivity|]. intros j Hj. lia.
    + apply String.eqb_neq in E. specialize (IH (i0 + 1)%Z).
      destruct (democlient.strInSlice_from (i0 + 1) rest str) as [[|] i].
      * destruct IH as (Hle & Hat & Hfirst).
        replace (Z.to_nat (i - i0)) with (S (Z.to_nat (i - (i0 + 1)))) by lia.
        split; [lia|]. split; [exact Hat|].
        intros [|j] Hj; simpl; [congruence | apply Hfirst; lia].
      * destruct IH as [-> Hout]. split; [reflexivity|].
        apply not_elem_of_cons. auto.
Qed.

(** X24: [strInSlice] finds the first occurrence.  It answers true with
    an index exactly when the string is in the slice, and the index is then
    that of its first occurrence; otherwise it answers false with -1. *)
Theorem strInSlice_first_occurrence (sl : list string) (str : string) :
  match democlient.strInSlice sl str with
  | (true, i) =>
      (0 ≤ i)%Z ∧ sl !! Z.to_nat i = Some str ∧
      ∀ j, j < Z.to_nat i → sl !! j ≠ Some str
  | (false, i) => i = (-1)%Z ∧ str ∉ sl
  end.
Proof.
  unfold democlient.strInSlice.
  pose proof (strInSlice_from_spec sl str 0) as H.
  destruct (democlient.strInSlice_from 0 sl str) as [[|] i]; [|exact H].
  replace (i - 0)%Z with i in H by lia. exact H.
Qed.

Lemma strInSlice_elem (sl : list string) (str : string) :
  (democlient.strInSlice sl str).1 = true ↔ str ∈ sl.
Proof.
  unfold democlient.strInSlice.
  pose proof (strInSlice_from_spec sl str 0) as H.
  destruct (democlient.strInSlice_from 0 sl str) as [[|] i]; simpl.
  - destruct H as (_ & Hat & _). split; [|reflexivity].
    intros _. eapply list_elem_of_lookup_2. exact Hat.
  - destruct H as [_ Hout]. split; [discriminate | contradiction].
Qed.

(** X25: [AnotInB] is the difference of its arguments: it keeps, in their
    order and with their repetitions, exactly the strings of the first
    slice that do not occur in the second. *)
Theorem AnotInB_is_difference (sA sB : list string) :
  democlient.AnotInB sA sB = filter (λ s, s ∉ sB) sA ∧
  ∀ s, s ∈ democlient.AnotInB sA sB ↔ s ∈ sA ∧ s ∉ sB.
Proof.
  assert (Heq : democlient.AnotInB sA sB = filter (λ s, s ∉ sB) sA).
  { induction sA as [|s rest IH]; [reflexivity|]. simpl.
    destruct ((democlient.strInSlice sB s).1) eqn:E.
    - apply strInSlice_elem in E. rewrite filter_cons_False by auto. exact IH.
    - rewrite filter_cons_True; [rewrite IH; reflexivity|].
      intros Hin. apply strInSlice_elem in Hin. congruence. }
  split; [exact Heq|].
  intros s. rewrite Heq, list_elem_of_filter. tauto.
Qed.

(** X26: the demo client's [subscribe] keeps its list of subscriptions
    free of duplicates.  It asks the server only for strings it has not
    recorded, each once; the list it records afterwards is the old list
    and the strings asked for; and if no request failed every string it was
    given is recorded. *)
Theorem democlient_subscribe_spec (Subscribe : string → string + string)
    (newsubs : list string) :
  ∀ currentSubs cs reqs e,
    democlient.subscribe Subscribe currentSubs newsubs = (cs, reqs, e) →
    NoDup currentSubs →
    NoDup cs ∧ NoDup reqs ∧
    (∀ s, s ∈ cs ↔ s ∈ currentSubs ∨ s ∈ reqs) ∧
    (∀ s, s ∈ reqs → s ∈ newsubs ∧ s ∉ currentSubs) ∧
    (e = None → ∀ s, s ∈ newsubs → s ∈ cs).
Proof.
  induction newsubs as [|sub rest IH]; intros cur cs reqs e; simpl.
  - intros [= <- <- <-] Hnd. split; [exact Hnd|]. split; [constructor|].
    split; [set_solver|]. split; [set_solver|]. intros _ s Hs. inversion Hs.
  - destruct ((democlient.strInSlice cur sub).1) eqn:E.
    + apply strInSlice_elem in E. intros Hrun Hnd.
      destruct (IH cur cs reqs e Hrun Hnd) as (Hn1 & Hn2 & Hmem & Hreq & Hall).
      split; [exact Hn1|]. split; [exact Hn2|]. split; [exact Hmem|].
      split; [intros s Hs; destruct (Hreq s Hs); set_solver|].
      intros He s [->|Hs]%elem_of_cons; [apply Hmem; auto | apply Hall; auto].
    + assert (Hout : sub ∉ cur).
      { intros Hin. apply strInSlice_elem in Hin. congruence. }
      intros Hrun Hnd.
      assert (Hnd1 : NoDup (cur ++ [sub])).
      { apply NoDup_app. split; [exact Hnd|]. split; [|apply NoDup_singleton].
        intros x Hx Hx'. apply list_elem_of_singleton in Hx'. subst x. contradiction. }
      destruct (Subscribe sub) as [resp|err].
      * destruct (democlient.subscribe Subscribe (cur ++ [sub]) rest)
          as [[cs1 rq] e1] eqn:Hrec.
        injection Hrun as <- <- <-.
        destruct (IH _ _ _ _ Hrec Hnd1) as (Hn1 & Hn2 & Hmem & Hreq & Hall).
        split; [exact Hn1|]. split.
        { apply NoDup_cons. split; [|exact Hn2].
          intros Hin. destruct (Hreq sub Hin) as [_ Hno]. set_solver. }
        split; [intros s; rewrite Hmem; set_solver|].
        split.
        { intros s [->|Hs]%elem_of_cons; [set_solver|].
          destruct (Hreq s Hs). set_solver. }
        intros He s [->|Hs]%elem_of_cons; [apply Hmem; set_solver | apply Hall; auto].
      * injection Hrun as <- <- <-.
        split; [exact Hnd1|]. split; [apply NoDup_singleton|].
        split; [set_solver|]. split; [set_solver|]. discriminate.
Qed.

Lemma democlient_subscribe_spec_witness :
  ∃ cs reqs,
    democlient.subscribe always_ok ["ping"] ["newblock"; "ping"; "newblock"]
    = (cs, reqs, None) ∧
    NoDup cs ∧ reqs = ["newblock"] ∧ cs = ["ping"; "newblock"].
Proof.
  eexists _, _. split; [reflexivity|]. split; [|split; reflexivity].
  apply (democlient_subscribe_spec always_ok ["newblock"; "ping"; "newblock"]
           ["ping"] _ _ None eq_refl).
  apply NoDup_singleton.
Defined.

Lemma remove_first_occurrence (cur : list string) (sub : string) (i : Z) :
  democlient.strInSlice cur sub = (true, i) → NoDup cur →
  NoDup (take (Z.to_nat i) cur ++ drop (S (Z.to_nat i)) cur) ∧
  ∀ s, s ∈ take (Z.to_nat i) cur ++ drop (S (Z.to_nat i)) cur ↔ s ∈ cur ∧ s ≠ sub.
Proof.
  intros Hfound Hnd.
  pose proof (strInSlice_from_spec cur sub 0) as Hspec.
  unfold democlient.strInSlice in Hfound. rewrite Hfound in Hspec.
  destruct Hspec as (_ & Hat & _). replace (i - 0)%Z with i in Hat by lia.
  pose proof (take_drop_middle cur (Z.to_nat i) sub Hat) as Hsplit.
  set (l1 := take (Z.to_nat i) cur) in *.
  set (l2 := drop (S (Z.to_nat i)) cur) in *.
  clearbody l1 l2. subst cur.
  apply NoDup_app in Hnd as (Hn1 & Hdisj & Hn2).
  apply NoDup_cons in Hn2 as [Hsub2 Hn2].
  split.
  - apply NoDup_app. split; [exact Hn1|]. split; [|exact Hn2].
    intros x Hx Hx'. apply (Hdisj x Hx). apply list_elem_of_further. exact Hx'.
  - intros s. rewrite !elem_of_app, elem_of_cons. split.
    + intros [Hs|Hs].
      * split; [auto|]. intros ->. apply (Hdisj sub Hs). apply list_elem_of_here.
      * split; [auto|]. intros ->. contradiction.
    + intros [[Hs|[->|Hs]] Hne]; [auto | contradiction | auto].
Qed.

(** X27: the demo client's [unsubscribe] removes what it asks the server
    to drop.  On a list without duplicates it asks only for strings it has
    recorded; the list it records afterwards, still without duplicates, is
    the old list without the strings asked for; and if no request failed
    none of the strings it was given is still recorded. *)
Theorem democlient_unsubscribe_spec (Unsubscribe : string → string + string)
    (rmsubs : list string) :
  ∀ currentSubs cs reqs e,
    democlient.unsubscribe Unsubscribe currentSubs rmsubs = (cs, reqs, e) →
    NoDup currentSubs →
    NoDup cs ∧
    (∀ s, s ∈ cs ↔ s ∈ currentSubs ∧ s ∉ reqs) ∧
    (∀ s, s ∈ reqs → s ∈ rmsubs ∧ s ∈ currentSubs) ∧
    (e = None → ∀ s, s ∈ rmsubs → s ∉ cs).
Proof.
  induction rmsubs as [|sub rest IH]; intros cur cs reqs e; simpl.
  - intros [= <- <- <-] Hnd. split; [exact Hnd|].
    split; [set_solver|]. split; [set_solver|]. intros _ s Hs. inversion Hs.
  - destruct (democlient.strInSlice cur sub) as [subd i] eqn:E.
    destruct subd; simpl.
    + intros Hrun Hnd.
      destruct (remove_first_occurrence cur sub i E Hnd) as [Hnd1 Hmem1].
      destruct (Unsubscribe sub) as [resp|err].
      * destruct (democlient.unsubscribe Unsubscribe _ rest) as [[cs1 rq] e1] eqn:Hrec.
        injection Hrun as <- <- <-.
        destruct (IH _ _ _ _ Hrec Hnd1) as (Hn & Hmem & Hreq & Hall).
        assert (Hin : sub ∈ cur).
        { apply strInSlice_elem. rewrite E. reflexivity. }
        split; [exact Hn|]. split.
        { intros s. rewrite Hmem, Hmem1, not_elem_of_cons. tauto. }
        split.
        { intros s [->|Hs]%elem_of_cons; [set_solver|].
          destruct (Hreq s Hs) as [Hr Hc]. apply Hmem1 in Hc. set_solver. }
        intros He s [->|Hs]%elem_of_cons.
        -- rewrite Hmem, Hmem1. tauto.
        -- apply Hall; auto.
      * injection Hrun as <- <- <-.
        assert (Hin : sub ∈ cur).
        { apply strInSlice_elem. rewrite E. reflexivity. }
        split; [exact Hnd1|]. split.
        { intros s. rewrite Hmem1, list_elem_of_singleton. tauto. }
        split; [set_solver | discriminate].
    + assert (Hout : sub ∉ cur).
      { intros Hin. apply strInSlice_elem in Hin. rewrite E in Hin. discriminate. }
      intros Hrun Hnd.
      destruct (IH cur cs reqs e Hrun Hnd) as (Hn & Hmem & Hreq & Hall).
      split; [exact Hn|]. split; [exact Hmem|].
      split; [intros s Hs; destruct (Hreq s Hs); set_solver|].
      intros He s [->|Hs]%elem_of_cons; [rewrite Hmem; tauto | apply Hall; auto].
Qed.

Lemma democlient_unsubscribe_spec_witness :
  ∃ cs reqs,
    democlient.unsubscribe always_ok ["ping"; "newblock"; "mempool"] ["newblock"; "newtxs"]
    = (cs, reqs, None) ∧
    NoDup cs ∧ reqs = ["newblock"] ∧ cs = ["ping"; "mempool"].
Proof.
  eexists _, _. split; [reflexivity|]. split; [|split; reflexivity].
  apply (democlient_unsubscribe_spec always_ok ["newblock"; "newtxs"]
           ["ping"; "newblock"; "mempool"] _ _ None eq_refl).
  refine (bool_decide_unpack _ _). vm_compute. exact I.
Defined.
